(** * The Mirror: persistence model (Supabase schema and store helpers)

    A shallow embedding of the SQL of [supabase/schema.sql] (tables, the RAG
    functions, the [updated_at] trigger), of the maintenance statements of
    the common-queries file, and of the Python store helpers of
    [supabase/MIGRATION_GUIDE.md].

    Conventions.
    - A table is the list of its rows; a UUID is a natural number; a
      [TIMESTAMPTZ] is an integer (microseconds); a [FLOAT] is a rational.
    - SQL conditions are three-valued: [None] is SQL's NULL, and a [WHERE]
      clause keeps a row only when its condition is [Some true].
    - pgvector's cosine-distance operator [<=>] is not code of the
      repository: it is a section variable.
    - Python code that talks to the database runs in the monad [M]: every
      [.execute()] may raise, and what was written before stays written. *)

From Stdlib Require Import List ZArith QArith Qminmax String Bool Arith Lia Lqa.
From Stdlib Require Import Sorting.Sorted Sorting.Permutation Relations DecimalString.
Import ListNotations.
Open Scope Z_scope.
Set Warnings "-register-all".

(* ================================================================== *)
(** * Part I. Definitions *)
(* ================================================================== *)

(** ** Column types *)

Definition uuid := nat.
Definition timestamptz := Z.
Definition vector := list Q.         (* VECTOR(768) *)

(** JSONB values, and Python dicts that are sent as JSON. *)
Inductive json :=
| JNull
| JBool (b : bool)
| JNum (n : Z)
| JStr (s : string)
| JArr (items : list json)
| JObj (fields : list (string * json)).

(** [d.get(k)] on a dict. *)
Fixpoint assoc_get (k : string) (fields : list (string * json)) : option json :=
  match fields with
  | [] => None
  | (k', v) :: rest => if String.eqb k k' then Some v else assoc_get k rest
  end.

Definition dict_get (d : json) (k : string) : option json :=
  match d with
  | JObj fields => assoc_get k fields
  | _ => None
  end.

(** ** SQL's three-valued logic *)

Definition sql_bool := option bool.

Definition sql_and (a b : sql_bool) : sql_bool :=
  match a, b with
  | Some false, _ | _, Some false => Some false
  | Some true, Some true => Some true
  | _, _ => None
  end.

Definition sql_is_not_null {A} (x : option A) : sql_bool :=
  Some (match x with Some _ => true | None => false end).

Definition sql_is_null {A} (x : option A) : sql_bool :=
  Some (match x with Some _ => false | None => true end).

Definition Qlt_bool (x y : Q) : bool := negb (Qle_bool y x).

(** [x > y] on nullable floats. *)
Definition sql_gt (x y : option Q) : sql_bool :=
  match x, y with
  | Some a, Some b => Some (Qlt_bool b a)
  | _, _ => None
  end.

(** [1 - x] on a nullable float. *)
Definition sql_one_minus (x : option Q) : option Q :=
  match x with
  | Some a => Some (1 - a)%Q
  | None => None
  end.

(** [WHERE c]: the rows whose condition is true (neither false nor NULL). *)
Definition sql_true (c : sql_bool) : bool :=
  match c with Some true => true | _ => false end.

Definition sql_where {A} (c : A -> sql_bool) (t : list A) : list A :=
  filter (fun r => sql_true (c r)) t.

(** ** ORDER BY and LIMIT *)

(** [ORDER BY]: SQL leaves the order of ties open; the model sorts by
    insertion, which keeps ties in table order. *)
Fixpoint insert_by {A} (le : A -> A -> bool) (x : A) (l : list A) : list A :=
  match l with
  | [] => [x]
  | y :: l' => if le x y then x :: y :: l' else y :: insert_by le x l'
  end.

Fixpoint order_by {A} (le : A -> A -> bool) (l : list A) : list A :=
  match l with
  | [] => []
  | x :: l' => insert_by le x (order_by le l')
  end.

Inductive sql_error :=
| SqlError (sqlstate : string) (message : string).

Inductive result (E A : Type) :=
| Ok (a : A)
| Err (e : E).
Arguments Ok {E A} a.
Arguments Err {E A} e.

(** [LIMIT n] with a non-null [INT]: PostgreSQL rejects a negative count
    (SQLSTATE 2201W). *)
Definition sql_limit {A} (n : Z) (l : list A) : result sql_error (list A) :=
  if n <? 0 then Err (SqlError "2201W" "LIMIT must not be negative")
  else Ok (firstn (Z.to_nat n) l).

(** Ascending order of nullable floats, NULLS LAST (PostgreSQL's default
    for ASC). *)
Definition float_asc (x y : option Q) : bool :=
  match x, y with
  | Some a, Some b => Qle_bool a b
  | Some _, None => true
  | None, Some _ => false
  | None, None => true
  end.

(** ** Journal tables (schema.sql) *)

Record journal_entry := {
  je_id : uuid;
  je_user_id : uuid;
  je_content : string;
  je_embedding : option vector;        (* VECTOR(768), nullable *)
  je_mood_tags : option (list string); (* JSONB *)
  je_topics : option (list string);    (* JSONB *)
  je_is_archived : bool;               (* DEFAULT FALSE *)
  je_created_at : timestamptz          (* DEFAULT NOW() *)
}.

Record journal_followup := {
  jf_id : uuid;
  jf_original_entry_id : uuid;
  jf_follow_up_question : option string;
  jf_follow_up_answer : option string;
  jf_synthesized_entry_id : option uuid;
  jf_created_at : timestamptz
}.

(** ** RAG functions (schema.sql) *)

(** The row type of [match_journal_entries]' result table. *)
Record match_row := {
  m_id : uuid;
  m_content : string;
  m_similarity : option Q;             (* FLOAT *)
  m_created_at : timestamptz
}.

Record recent_row := {
  rr_id : uuid;
  rr_content : string;
  rr_created_at : timestamptz
}.

Section Pgvector.

(** pgvector's [a <=> b]. *)
Variable cosine_distance : vector -> vector -> Q.

(** [embedding <=> query_embedding] on a nullable column. *)
Definition distance_to (query_embedding : vector) (e : journal_entry) : option Q :=
  match je_embedding e with
  | Some v => Some (cosine_distance v query_embedding)
  | None => None
  end.

(** The WHERE clause of [match_journal_entries]. *)
Definition match_condition (query_embedding : vector) (match_threshold : Q)
    (target_user_id : uuid) (e : journal_entry) : sql_bool :=
  sql_and
    (sql_and
       (sql_and (Some (Nat.eqb (je_user_id e) target_user_id))
                (Some (Bool.eqb (je_is_archived e) false)))
       (sql_is_not_null (je_embedding e)))
    (sql_gt (sql_one_minus (distance_to query_embedding e)) (Some match_threshold)).

(** The SELECT list. *)
Definition match_select (query_embedding : vector) (e : journal_entry) : match_row :=
  {| m_id := je_id e;
     m_content := je_content e;
     m_similarity := sql_one_minus (distance_to query_embedding e);
     m_created_at := je_created_at e |}.

Definition match_journal_entries (journal_entries : list journal_entry)
    (query_embedding : vector) (match_threshold : Q) (match_count : Z)
    (target_user_id : uuid) : result sql_error (list match_row) :=
  match
    sql_limit match_count
      (order_by
         (fun a b => float_asc (distance_to query_embedding a)
                               (distance_to query_embedding b))
         (sql_where (match_condition query_embedding match_threshold target_user_id)
                    journal_entries))
  with
  | Ok rows => Ok (map (match_select query_embedding) rows)
  | Err e => Err e
  end.

End Pgvector.

Definition recent_condition (target_user_id : uuid) (e : journal_entry) : sql_bool :=
  sql_and (Some (Nat.eqb (je_user_id e) target_user_id))
          (Some (Bool.eqb (je_is_archived e) false)).

Definition recent_select (e : journal_entry) : recent_row :=
  {| rr_id := je_id e; rr_content := je_content e; rr_created_at := je_created_at e |}.

(** [ORDER BY created_at DESC]. *)
Definition created_desc (a b : journal_entry) : bool :=
  je_created_at b <=? je_created_at a.

Definition get_recent_journal_entries (journal_entries : list journal_entry)
    (target_user_id : uuid) (entry_count : Z) : result sql_error (list recent_row) :=
  match
    sql_limit entry_count
      (order_by created_desc (sql_where (recent_condition target_user_id) journal_entries))
  with
  | Ok rows => Ok (map recent_select rows)
  | Err e => Err e
  end.

(** ** The first schema (supabase_schema.sql, supabase_remove_fk.sql)

    There [journal_entries] has no [is_archived] column, the function tests
    neither that flag nor the embedding for NULL, and its result has no
    [created_at]. *)
Module FirstSchema.

Record journal_entry := {
  je_id : uuid;
  je_user_id : uuid;
  je_content : string;
  je_embedding : option vector;        (* VECTOR(768), nullable *)
  je_created_at : timestamptz
}.

Record match_row := {
  m_id : uuid;
  m_content : string;
  m_similarity : option Q
}.

Section Pgvector.

Variable cosine_distance : vector -> vector -> Q.

Definition distance_to (query_embedding : vector) (e : journal_entry) : option Q :=
  match je_embedding e with
  | Some v => Some (cosine_distance v query_embedding)
  | None => None
  end.

Definition match_condition (query_embedding : vector) (match_threshold : Q)
    (user_id : uuid) (e : journal_entry) : sql_bool :=
  sql_and (Some (Nat.eqb (je_user_id e) user_id))
          (sql_gt (sql_one_minus (distance_to query_embedding e)) (Some match_threshold)).

Definition match_select (query_embedding : vector) (e : journal_entry) : match_row :=
  {| m_id := je_id e;
     m_content := je_content e;
     m_similarity := sql_one_minus (distance_to query_embedding e) |}.

Definition match_journal_entries (journal_entries : list journal_entry)
    (query_embedding : vector) (match_threshold : Q) (match_count : Z)
    (user_id : uuid) : result sql_error (list match_row) :=
  match
    sql_limit match_count
      (order_by
         (fun a b => float_asc (distance_to query_embedding a)
                               (distance_to query_embedding b))
         (sql_where (match_condition query_embedding match_threshold user_id)
                    journal_entries))
  with
  | Ok rows => Ok (map (match_select query_embedding) rows)
  | Err e => Err e
  end.

End Pgvector.

End FirstSchema.

(** ** Journal statements *)

(** [uuid_generate_v4()] under a PRIMARY KEY: an id no row of the table has. *)
Definition fresh_uuid (ids : list uuid) : uuid := S (list_max ids).

(** [UPDATE t SET ... WHERE c], with the table's BEFORE UPDATE row trigger
    ([fun r => r] for a table that has none). *)
Definition sql_update {row} (c : row -> sql_bool) (set_ : row -> row)
    (before_update : row -> row) (t : list row) : list row :=
  map (fun r => if sql_true (c r) then before_update (set_ r) else r) t.

(** [DELETE FROM t WHERE c]. *)
Definition sql_delete {row} (c : row -> sql_bool) (t : list row) : list row :=
  filter (fun r => negb (sql_true (c r))) t.

(** [INSERT INTO journal_entries (user_id, content, embedding, mood_tags)]:
    id, is_archived and created_at take their defaults. Returns the new
    table and the inserted row. *)
Definition insert_journal_entry (now : timestamptz) (user_id : uuid) (content : string)
    (embedding : option vector) (mood_tags : option (list string))
    (t : list journal_entry) : list journal_entry * journal_entry :=
  let r := {| je_id := fresh_uuid (map je_id t);
              je_user_id := user_id;
              je_content := content;
              je_embedding := embedding;
              je_mood_tags := mood_tags;
              je_topics := None;
              je_is_archived := false;
              je_created_at := now |} in
  (t ++ [r], r).

Definition set_archived (e : journal_entry) : journal_entry :=
  {| je_id := je_id e; je_user_id := je_user_id e; je_content := je_content e;
     je_embedding := je_embedding e; je_mood_tags := je_mood_tags e;
     je_topics := je_topics e; je_is_archived := true;
     je_created_at := je_created_at e |}.

Definition archive_condition (now : timestamptz) (age : Z) (user_id : uuid)
    (e : journal_entry) : sql_bool :=
  sql_and
    (sql_and (Some (Nat.eqb (je_user_id e) user_id))
             (Some (je_created_at e <? now - age)))
    (Some (Bool.eqb (je_is_archived e) false)).

(** "Archive old entries" of the common queries:
    [UPDATE journal_entries SET is_archived = true
     WHERE user_id = .. AND created_at < NOW() - INTERVAL .. AND is_archived = false]. *)
Definition archive_older_than (now : timestamptz) (age : Z) (user_id : uuid)
    (t : list journal_entry) : list journal_entry :=
  sql_update (archive_condition now age user_id) set_archived (fun r => r) t.

(** The interval the source writes, ['1 year'], in microseconds. *)
Definition one_year : Z := 365 * 24 * 3600 * 1000000.

(** The statements the repository runs on [journal_entries]. *)
Inductive journal_op :=
| OpInsert (now : timestamptz) (user_id : uuid) (content : string)
           (embedding : option vector) (mood_tags : option (list string))
| OpArchive (now : timestamptz) (age : Z) (user_id : uuid).

Definition journal_run_op (op : journal_op) (t : list journal_entry) : list journal_entry :=
  match op with
  | OpInsert now u c e m => fst (insert_journal_entry now u c e m t)
  | OpArchive now age u => archive_older_than now age u t
  end.

Definition journal_run (ops : list journal_op) (t : list journal_entry) : list journal_entry :=
  fold_left (fun t op => journal_run_op op t) ops t.

(** ** Chat sessions (schema.sql) *)

Record chat_session := {
  cs_id : uuid;
  cs_user_id : uuid;
  cs_session_name : option string;
  cs_mentor_id : option string;
  cs_user_situation : option string;
  cs_started_at : timestamptz;         (* DEFAULT NOW() *)
  cs_ended_at : option timestamptz;
  cs_created_at : timestamptz
}.

Definition set_ended_at (v : option timestamptz) (s : chat_session) : chat_session :=
  {| cs_id := cs_id s; cs_user_id := cs_user_id s; cs_session_name := cs_session_name s;
     cs_mentor_id := cs_mentor_id s; cs_user_situation := cs_user_situation s;
     cs_started_at := cs_started_at s; cs_ended_at := v;
     cs_created_at := cs_created_at s |}.

(** "End chat session" of the common queries:
    [UPDATE chat_sessions SET ended_at = NOW() WHERE id = ..]. *)
Definition end_session (now : timestamptz) (session_id : uuid)
    (t : list chat_session) : list chat_session :=
  sql_update (fun s => Some (Nat.eqb (cs_id s) session_id))
             (set_ended_at (Some now)) (fun r => r) t.

Definition open_condition (user_id : uuid) (s : chat_session) : sql_bool :=
  sql_and (Some (Nat.eqb (cs_user_id s) user_id)) (sql_is_null (cs_ended_at s)).

Definition started_desc (a b : chat_session) : bool :=
  cs_started_at b <=? cs_started_at a.

(** [.eq('user_id', ..).is_('ended_at', 'null').order('started_at', desc=True).limit(1)] *)
Definition select_open_session (user_id : uuid) (t : list chat_session) : list chat_session :=
  firstn 1 (order_by started_desc (sql_where (open_condition user_id) t)).

(** [.insert({'user_id': user_id})]: every other column takes its default. *)
Definition insert_chat_session (now : timestamptz) (user_id : uuid)
    (t : list chat_session) : list chat_session * chat_session :=
  let r := {| cs_id := fresh_uuid (map cs_id t);
              cs_user_id := user_id;
              cs_session_name := None;
              cs_mentor_id := None;
              cs_user_situation := None;
              cs_started_at := now;
              cs_ended_at := None;
              cs_created_at := now |} in
  (t ++ [r], r).

(** The open sessions of an owner. *)
Definition open_sessions (user_id : uuid) (t : list chat_session) : list chat_session :=
  sql_where (open_condition user_id) t.

(** ** Conversation state and profiles (schema.sql) *)

Record conversation_row := {
  ch_id : uuid;
  ch_user_id : uuid;
  ch_session_key : string;
  ch_agent_state : option json;        (* JSONB *)
  ch_last_agent : option json;         (* what [state.get('current_agent')] sent *)
  ch_created_at : timestamptz;
  ch_updated_at : timestamptz
}.

Record user_profile := {
  up_id : uuid;
  up_display_name : option string;
  up_bio : option string;
  up_preferred_meditation_duration : option Z;
  up_preferred_mentor_category : option string;
  up_theme_preference : option string;
  up_created_at : timestamptz;
  up_updated_at : timestamptz
}.

(** Tables with an [updated_at] column, on which schema.sql installs the
    [update_updated_at_column] trigger. *)
Class Timestamped (row : Type) := {
  updated_at : row -> timestamptz;
  set_updated_at : timestamptz -> row -> row;
  updated_at_set : forall t r, updated_at (set_updated_at t r) = t
}.

#[export, refine] Instance conversation_row_timestamped : Timestamped conversation_row := {
  updated_at := ch_updated_at;
  set_updated_at t r :=
    {| ch_id := ch_id r; ch_user_id := ch_user_id r; ch_session_key := ch_session_key r;
       ch_agent_state := ch_agent_state r; ch_last_agent := ch_last_agent r;
       ch_created_at := ch_created_at r; ch_updated_at := t |}
}.
Proof. reflexivity. Defined.

#[export, refine] Instance user_profile_timestamped : Timestamped user_profile := {
  updated_at := up_updated_at;
  set_updated_at t r :=
    {| up_id := up_id r; up_display_name := up_display_name r; up_bio := up_bio r;
       up_preferred_meditation_duration := up_preferred_meditation_duration r;
       up_preferred_mentor_category := up_preferred_mentor_category r;
       up_theme_preference := up_theme_preference r;
       up_created_at := up_created_at r; up_updated_at := t |}
}.
Proof. reflexivity. Defined.

(** The trigger function: [NEW.updated_at = NOW(); RETURN NEW]. *)
Definition update_updated_at_column {row} `{Timestamped row}
    (now : timestamptz) (NEW : row) : row :=
  set_updated_at now NEW.

(** [UPDATE t SET .. WHERE c] on a table that carries the BEFORE UPDATE
    trigger, run at time [now]. *)
Definition update_with_trigger {row} `{Timestamped row} (now : timestamptz)
    (c : row -> sql_bool) (set_ : row -> row) (t : list row) : list row :=
  sql_update c set_ (update_updated_at_column now) t.

(** The writes the repository performs on such a table: an INSERT whose
    [updated_at] is the column default or ['now()'] ([new_row] builds the
    other columns from the table, for the fresh id), an UPDATE with any
    WHERE clause and any SET list, and a DELETE. *)
Inductive table_write (row : Type) :=
| WInsert (now : timestamptz) (new_row : list row -> row)
| WUpdate (now : timestamptz) (c : row -> sql_bool) (set_ : row -> row)
| WDelete (c : row -> sql_bool).
Arguments WInsert {row} now new_row.
Arguments WUpdate {row} now c set_.
Arguments WDelete {row} c.

Definition run_write {row} `{Timestamped row} (w : table_write row)
    (t : list row) : list row :=
  match w with
  | WInsert now new_row => t ++ [set_updated_at now (new_row t)]
  | WUpdate now c set_ => update_with_trigger now c set_ t
  | WDelete c => sql_delete c t
  end.

Definition run_writes {row} `{Timestamped row} (ws : list (table_write row))
    (t : list row) : list row :=
  fold_left (fun t w => run_write w t) ws t.

(** The same run with bookkeeping: every row is paired with the time of
    the last write that touched it. *)
Definition run_write_logged {row} `{Timestamped row} (w : table_write row)
    (t : list (row * timestamptz)) : list (row * timestamptz) :=
  match w with
  | WInsert now new_row => t ++ [(set_updated_at now (new_row (map fst t)), now)]
  | WUpdate now c set_ =>
      map (fun p => if sql_true (c (fst p))
                    then (update_updated_at_column now (set_ (fst p)), now)
                    else p) t
  | WDelete c => filter (fun p => negb (sql_true (c (fst p)))) t
  end.

Definition run_writes_logged {row} `{Timestamped row} (ws : list (table_write row))
    (t : list (row * timestamptz)) : list (row * timestamptz) :=
  fold_left (fun t w => run_write_logged w t) ws t.

(** ** The database and the Python side *)

(** Columns of [conversation_history] a unique index can be declared on. *)
Inductive ch_column := Ch_id | Ch_user_id | Ch_session_key.

Definition ch_column_eqb (a b : ch_column) : bool :=
  match a, b with
  | Ch_id, Ch_id | Ch_user_id, Ch_user_id | Ch_session_key, Ch_session_key => true
  | _, _ => false
  end.

(** What the DDL fixes and the statements below depend on: the unique
    indexes of [conversation_history]. *)
Record schema := {
  conversation_history_unique : list (list ch_column)
}.

(** schema.sql: [id UUID PRIMARY KEY] is the table's only unique index;
    [conversation_history_idx ON (user_id, session_key)] is a plain
    [CREATE INDEX]. *)
Definition schema_sql : schema :=
  {| conversation_history_unique := [[Ch_id]] |}.

Record database := {
  journal_entries : list journal_entry;
  journal_followups : list journal_followup;
  chat_sessions : list chat_session;
  conversation_history : list conversation_row
}.

Definition empty_database : database :=
  {| journal_entries := []; journal_followups := [];
     chat_sessions := []; conversation_history := [] |}.

Definition with_journal_entries (t : list journal_entry) (db : database) : database :=
  {| journal_entries := t; journal_followups := journal_followups db;
     chat_sessions := chat_sessions db; conversation_history := conversation_history db |}.

Definition with_journal_followups (t : list journal_followup) (db : database) : database :=
  {| journal_entries := journal_entries db; journal_followups := t;
     chat_sessions := chat_sessions db; conversation_history := conversation_history db |}.

Definition with_chat_sessions (t : list chat_session) (db : database) : database :=
  {| journal_entries := journal_entries db; journal_followups := journal_followups db;
     chat_sessions := t; conversation_history := conversation_history db |}.

Definition with_conversation_history (t : list conversation_row) (db : database) : database :=
  {| journal_entries := journal_entries db; journal_followups := journal_followups db;
     chat_sessions := chat_sessions db; conversation_history := t |}.

(** Python exceptions. *)
Inductive exn :=
| APIError (e : sql_error)               (* the database refused the statement *)
| ConnectError (message : string)        (* the database cannot be reached *)
| ProviderError (message : string)       (* embedding or generation provider *)
| HTTPException (status_code : nat) (detail : string).

(** [str(e)]. *)
Definition str (e : exn) : string :=
  match e with
  | APIError (SqlError _ m) => m
  | ConnectError m => m
  | ProviderError m => m
  | HTTPException c d => (NilEmpty.string_of_uint (Nat.to_uint c) ++ ": " ++ d)%string
  end.

(** The world a request runs in: the schema and the tables, the outcome the
    network has in store for each coming [.execute()] ([Some e]: the call
    raises [e]; [None], or an exhausted list: it reaches the database), the
    database clock, and what was printed. *)
Record world := {
  w_schema : schema;
  w_db : database;
  w_faults : list (option exn);
  w_now : timestamptz;
  w_log : list string
}.

Definition M (A : Type) : Type := world -> result exn A * world.

Definition ret {A} (a : A) : M A := fun w => (Ok a, w).

Definition bind {A B} (m : M A) (k : A -> M B) : M B :=
  fun w =>
    match m w with
    | (Ok a, w') => k a w'
    | (Err e, w') => (Err e, w')
    end.

Definition raise {A} (e : exn) : M A := fun w => (Err e, w).

(** [try: m  except Exception as e: handler e]. *)
Definition try_except {A} (m : M A) (handler : exn -> M A) : M A :=
  fun w =>
    match m w with
    | (Ok a, w') => (Ok a, w')
    | (Err e, w') => handler e w'
    end.

Definition print (line : string) : M unit :=
  fun w => (Ok tt,
            {| w_schema := w_schema w; w_db := w_db w; w_faults := w_faults w;
               w_now := w_now w; w_log := w_log w ++ [line] |}).

Notation "x <- m ;; k" := (bind m (fun x => k))
  (at level 61, m at next level, right associativity).
Notation "m ;;; k" := (bind m (fun _ => k))
  (at level 61, right associativity).

(** A statement maps the schema, [NOW()] and the tables to a result and new
    tables, or is refused by the database. *)
Definition statement (A : Type) : Type :=
  schema -> timestamptz -> database -> result sql_error (A * database).

(** [.execute()]: one round trip. The clock moves on with every call. *)
Definition execute {A} (stmt : statement A) : M A :=
  fun w =>
    let after db :=
      {| w_schema := w_schema w; w_db := db; w_faults := tl (w_faults w);
         w_now := w_now w + 1; w_log := w_log w |} in
    match w_faults w with
    | Some e :: _ => (Err e, after (w_db w))
    | _ =>
        match stmt (w_schema w) (w_now w) (w_db w) with
        | Ok (a, db') => (Ok a, after db')
        | Err e => (Err (APIError e), after (w_db w))
        end
    end.

Definition lift {A} (r : result exn A) : M A :=
  fun w => (r, w).

(** ** ConversationStore (MIGRATION_GUIDE.md, section 1) *)

Definition same_columns (a b : list ch_column) : bool :=
  forallb (fun c => existsb (ch_column_eqb c) b) a
  && forallb (fun c => existsb (ch_column_eqb c) a) b.

Definition ch_agree (c : ch_column) (a b : conversation_row) : bool :=
  match c with
  | Ch_id => Nat.eqb (ch_id a) (ch_id b)
  | Ch_user_id => Nat.eqb (ch_user_id a) (ch_user_id b)
  | Ch_session_key => String.eqb (ch_session_key a) (ch_session_key b)
  end.

Definition ch_conflict (cols : list ch_column) (new old : conversation_row) : bool :=
  forallb (fun c => ch_agree c new old) cols.

(** [DO UPDATE SET col = EXCLUDED.col] for the columns of the payload:
    user_id, session_key, agent_state, last_agent, updated_at. *)
Definition ch_set_excluded (new old : conversation_row) : conversation_row :=
  {| ch_id := ch_id old; ch_user_id := ch_user_id new;
     ch_session_key := ch_session_key new; ch_agent_state := ch_agent_state new;
     ch_last_agent := ch_last_agent new; ch_created_at := ch_created_at old;
     ch_updated_at := ch_updated_at new |}.

(** [.upsert({...}, on_conflict=cols)], that is
    [INSERT .. ON CONFLICT (cols) DO UPDATE SET ..]. PostgreSQL infers the
    arbiter from the table's unique indexes and refuses the statement
    (SQLSTATE 42P10) when none is declared on exactly these columns. *)
Definition upsert_conversation_history (on_conflict : list ch_column)
    (user_id : uuid) (session_key : string) (agent_state : json)
    (last_agent : option json) : statement unit :=
  fun sch now db =>
    let t := conversation_history db in
    let new := {| ch_id := fresh_uuid (map ch_id t);
                  ch_user_id := user_id;
                  ch_session_key := session_key;
                  ch_agent_state := Some agent_state;
                  ch_last_agent := last_agent;
                  ch_created_at := now;
                  ch_updated_at := now |} in
    if existsb (same_columns on_conflict) (conversation_history_unique sch) then
      if existsb (ch_conflict on_conflict new) t then
        Ok (tt, with_conversation_history
                  (update_with_trigger now
                     (fun old => Some (ch_conflict on_conflict new old))
                     (ch_set_excluded new) t) db)
      else Ok (tt, with_conversation_history (t ++ [new]) db)
    else Err (SqlError "42P10"
      "there is no unique or exclusion constraint matching the ON CONFLICT specification").

Definition state_condition (user_id : uuid) (session_key : string)
    (r : conversation_row) : sql_bool :=
  sql_and (Some (Nat.eqb (ch_user_id r) user_id))
          (Some (String.eqb (ch_session_key r) session_key)).

Definition updated_desc (a b : conversation_row) : bool :=
  ch_updated_at b <=? ch_updated_at a.

Definition select_state (user_id : uuid) (session_key : string)
    : statement (list conversation_row) :=
  fun _ _ db =>
    Ok (firstn 1 (order_by updated_desc
                    (sql_where (state_condition user_id session_key)
                               (conversation_history db))), db).

Definition delete_state (user_id : uuid) (session_key : string) : statement unit :=
  fun _ _ db =>
    Ok (tt, with_conversation_history
              (sql_delete (state_condition user_id session_key)
                          (conversation_history db)) db).

Module ConversationStore.

(** The default of the [session_key] argument. *)
Definition default : string := "default".

Definition load_state (user_id : uuid) (session_key : string) : M (option json) :=
  try_except
    (data <- execute (select_state user_id session_key) ;;
     match data with
     | r :: _ => ret (ch_agent_state r)
     | [] => ret None
     end)
    (fun e =>
       print ("Error loading conversation state: " ++ str e)%string ;;;
       ret None).

Definition save_state (user_id : uuid) (state : json) (session_key : string) : M unit :=
  try_except
    (execute (upsert_conversation_history [Ch_user_id; Ch_session_key]
                user_id session_key state (dict_get state "current_agent")))
    (fun e =>
       print ("Error saving conversation state: " ++ str e)%string).

Definition clear_state (user_id : uuid) (session_key : string) : M unit :=
  try_except
    (execute (delete_state user_id session_key))
    (fun e =>
       print ("Error clearing conversation state: " ++ str e)%string).

End ConversationStore.

(** The README of the schema directory saves with [.upsert({...})] and no
    [on_conflict]: the conflict target is then the primary key, [id], which
    the payload leaves to its default. *)
Definition save_conversation_state (user_id : uuid) (session_key : string)
    (state : json) : M unit :=
  execute (upsert_conversation_history [Ch_id] user_id session_key state
             (dict_get state "current_agent")).

(** ** Chat session tracking (MIGRATION_GUIDE.md, section 3) *)

Definition select_open_session_stmt (user_id : uuid) : statement (list chat_session) :=
  fun _ _ db => Ok (select_open_session user_id (chat_sessions db), db).

(** Returns the inserted row, [.data[0]]. *)
Definition insert_chat_session_stmt (user_id : uuid) : statement chat_session :=
  fun _ now db =>
    let (t, r) := insert_chat_session now user_id (chat_sessions db) in
    Ok (r, with_chat_sessions t db).

Definition get_or_create_chat_session (user_id : uuid) : M chat_session :=
  data <- execute (select_open_session_stmt user_id) ;;
  match data with
  | r :: _ => ret r
  | [] => execute (insert_chat_session_stmt user_id)
  end.

(** Two requests against one database: the helper is two round trips, and
    statements of other requests may run between them. A request is before
    its SELECT, between the SELECT (which found nothing) and the INSERT, or
    has returned. *)
Inductive request :=
| Calling (user_id : uuid)
| Selected (user_id : uuid)
| Returned (session : chat_session).

Definition request_step (now : timestamptz) (r : request) (t : list chat_session)
    : option (request * list chat_session) :=
  match r with
  | Calling u =>
      match select_open_session u t with
      | s :: _ => Some (Returned s, t)
      | [] => Some (Selected u, t)
      end
  | Selected u =>
      let (t', s) := insert_chat_session now u t in Some (Returned s, t')
  | Returned _ => None
  end.

(** The table, the clock and the requests in flight. *)
Definition config : Type := list chat_session * timestamptz * list request.

Inductive step : config -> config -> Prop :=
| step_one t now before r after r' t' :
    request_step now r t = Some (r', t') ->
    step (t, now, before ++ r :: after) (t', now + 1, before ++ r' :: after).

Definition reachable : config -> config -> Prop := clos_refl_trans config step.

(** ** Journal follow-ups (MIGRATION_GUIDE.md, section 2) and ingestion *)

Record JournalFollowUpRequest := {
  entry_id : uuid;
  question : string;
  answer : string;
  user_id : uuid
}.

Record follow_up_response := {
  status : string;
  synthesized_entry : journal_entry;
  followup_id : uuid
}.

Definition entry_condition (id user : uuid) (e : journal_entry) : sql_bool :=
  sql_and (Some (Nat.eqb (je_id e) id)) (Some (Nat.eqb (je_user_id e) user)).

(** [.select('*').eq('id', ..).eq('user_id', ..).single()]: anything but
    exactly one row is an error (PGRST116). *)
Definition select_entry_single (id user : uuid) : statement journal_entry :=
  fun _ _ db =>
    match sql_where (entry_condition id user) (journal_entries db) with
    | [r] => Ok (r, db)
    | _ => Err (SqlError "PGRST116"
                  "JSON object requested, multiple (or no) rows returned")
    end.

(** Returns the inserted row, [.data[0]]. *)
Definition insert_followup_stmt (original : uuid) (q a : string)
    : statement journal_followup :=
  fun _ now db =>
    let t := journal_followups db in
    let r := {| jf_id := fresh_uuid (map jf_id t);
                jf_original_entry_id := original;
                jf_follow_up_question := Some q;
                jf_follow_up_answer := Some a;
                jf_synthesized_entry_id := None;
                jf_created_at := now |} in
    Ok (r, with_journal_followups (t ++ [r]) db).

Definition insert_journal_entry_stmt (user : uuid) (content : string)
    (embedding : option vector) (mood_tags : option (list string))
    : statement journal_entry :=
  fun _ now db =>
    let (t, r) := insert_journal_entry now user content embedding mood_tags
                    (journal_entries db) in
    Ok (r, with_journal_entries t db).

Definition set_synthesized_entry_id (v : option uuid) (f : journal_followup)
    : journal_followup :=
  {| jf_id := jf_id f; jf_original_entry_id := jf_original_entry_id f;
     jf_follow_up_question := jf_follow_up_question f;
     jf_follow_up_answer := jf_follow_up_answer f;
     jf_synthesized_entry_id := v; jf_created_at := jf_created_at f |}.

(** [.update({'synthesized_entry_id': ..}).eq('id', ..)] *)
Definition link_followup_stmt (followup entry : uuid) : statement unit :=
  fun _ _ db =>
    Ok (tt, with_journal_followups
              (sql_update (fun f => Some (Nat.eqb (jf_id f) followup))
                          (set_synthesized_entry_id (Some entry)) (fun r => r)
                          (journal_followups db)) db).

Section Providers.

(** The embedding provider: a vector, or an error (quota, time-out). *)
Variable embed : string -> result exn vector.

(** The generation provider behind [synthesize_entry]. *)
Variable synthesize_entry : string -> string -> result exn string.

(** Modelled from the spec: [get_embedding] (app/services/embeddings.py,
    not among the sources). "If that call fails, stores the entry with no
    embedding (fails soft, not hard)": a provider error is logged and the
    embedding is absent. *)
Definition get_embedding (text : string) : M (option vector) :=
  match embed text with
  | Ok v => ret (Some v)
  | Err e => print ("Embedding failed: " ++ str e)%string ;;; ret None
  end.

(** Modelled from the spec: the Journal Store's [append(owner, text, tags?)]
    (the ingestion service is not among the sources): the embedding of
    [text], soft-failing, then one INSERT, as the inserts of
    MIGRATION_GUIDE.md do. *)
Definition append (owner : uuid) (text : string) (tags : option (list string))
    : M journal_entry :=
  embedding <- get_embedding text ;;
  execute (insert_journal_entry_stmt owner text embedding tags).

(** The sketch of the execution plan (HACKATHON_EXECUTION_PLAN.md, "RAG
    Pipeline Implementation"), written before the fallback existed: the
    provider call has no handler. *)
Definition generate_embedding (text : string) : M vector :=
  lift (embed text).

Definition ingest_journal (user : uuid) (content : string) : M unit :=
  embedding <- generate_embedding content ;;
  execute (insert_journal_entry_stmt user content (Some embedding) None) ;;;
  ret tt.

(** [process_follow_up]. Its [if not original_entry.data: raise
    HTTPException(404)] cannot fire: [.single()] has raised already when
    there is no row. *)
Definition process_follow_up (request : JournalFollowUpRequest) : M follow_up_response :=
  try_except
    (original_entry <- execute (select_entry_single (entry_id request) (user_id request)) ;;
     followup <- execute (insert_followup_stmt (entry_id request)
                            (question request) (answer request)) ;;
     synthesized_content <- lift (synthesize_entry (je_content original_entry)
                                    (answer request)) ;;
     embedding <- get_embedding synthesized_content ;;
     new_entry <- execute (insert_journal_entry_stmt (user_id request)
                             synthesized_content embedding None) ;;
     execute (link_followup_stmt (jf_id followup) (je_id new_entry)) ;;;
     ret {| status := "success";
            synthesized_entry := new_entry;
            followup_id := jf_id followup |})
    (fun e => raise (HTTPException 500 (str e))).

End Providers.

(** ** Sample data *)

(** Cosine distance on vectors of length one: [1 - a.b]. *)
Fixpoint dot (a b : vector) : Q :=
  match a, b with
  | x :: a', y :: b' => (x * y + dot a' b')%Q
  | _, _ => 0%Q
  end.

Definition unit_cosine_distance (a b : vector) : Q := (1 - dot a b)%Q.

Definition sample_entry (id user : uuid) (content : string)
    (embedding : option vector) (archived : bool) (created : timestamptz)
    : journal_entry :=
  {| je_id := id; je_user_id := user; je_content := content;
     je_embedding := embedding; je_mood_tags := None; je_topics := None;
     je_is_archived := archived; je_created_at := created |}.

Definition sample_journal : list journal_entry :=
  [ sample_entry 1%nat 7%nat "I feel anxious about work" (Some [1; 0]%Q) false 100;
    sample_entry 2%nat 7%nat "I went for a walk and felt calm" (Some [0; 1]%Q) false 200;
    sample_entry 3%nat 7%nat "no embedding" None false 300;
    sample_entry 4%nat 7%nat "archived" (Some [1; 0]%Q) true 50;
    sample_entry 5%nat 8%nat "someone else" (Some [1; 0]%Q) false 120;
    sample_entry 6%nat 7%nat "deadlines" (Some [(3#5); (4#5)]%Q) false 400 ].

Definition sample_session (id user : uuid) (started : timestamptz)
    (ended : option timestamptz) : chat_session :=
  {| cs_id := id; cs_user_id := user; cs_session_name := None;
     cs_mentor_id := None; cs_user_situation := None;
     cs_started_at := started; cs_ended_at := ended; cs_created_at := started |}.

Definition sample_state : json :=
  JObj [("messages"%string, JArr []); ("current_agent"%string, JStr "router")].

Definition world_of (sch : schema) (db : database) (faults : list (option exn)) : world :=
  {| w_schema := sch; w_db := db; w_faults := faults; w_now := 1000; w_log := [] |}.

Definition sample_embed_down (text : string) : result exn vector :=
  Err (ProviderError "429 quota exceeded").

Definition sample_synthesize (original answer : string) : result exn string :=
  Ok (original ++ " / " ++ answer)%string.

Definition sample_embed (text : string) : result exn vector :=
  Ok [1; 0]%Q.

Definition sample_database : database :=
  with_journal_entries sample_journal empty_database.

Definition sample_request : JournalFollowUpRequest :=
  {| entry_id := 1%nat; question := "What triggered this?";
     answer := "A deadline"; user_id := 7%nat |}.

Definition outage : exn := ConnectError "connection refused".

Definition with_faults (faults : list (option exn)) (w : world) : world :=
  {| w_schema := w_schema w; w_db := w_db w; w_faults := faults;
     w_now := w_now w; w_log := w_log w |}.

(** The rows of [conversation_history] for one (user, session key). *)
Definition rows_for (user : uuid) (key : string) (t : list conversation_row)
    : list conversation_row :=
  sql_where (state_condition user key) t.

(** schema.sql with the index the upsert asks for:
    [UNIQUE (user_id, session_key)]. *)
Definition schema_with_unique_key : schema :=
  {| conversation_history_unique := [[Ch_id]; [Ch_user_id; Ch_session_key]] |}.

Definition sample_state' : json :=
  JObj [("messages"%string, JArr [JStr "hello"]);
        ("current_agent"%string, JStr "wise_mentor")].

(** What the upsert of [save_state] does to the table when the index
    exists. *)
Definition upserted (now : timestamptz) (user : uuid) (key : string) (state : json)
    (t : list conversation_row) : list conversation_row :=
  let new := {| ch_id := fresh_uuid (map ch_id t); ch_user_id := user;
                ch_session_key := key; ch_agent_state := Some state;
                ch_last_agent := dict_get state "current_agent";
                ch_created_at := now; ch_updated_at := now |} in
  if existsb (ch_conflict [Ch_user_id; Ch_session_key] new) t
  then update_with_trigger now
         (fun old => Some (ch_conflict [Ch_user_id; Ch_session_key] new old))
         (ch_set_excluded new) t
  else t ++ [new].

Definition sample_profile : user_profile :=
  {| up_id := 7%nat; up_display_name := Some "John Doe"%string; up_bio := None;
     up_preferred_meditation_duration := Some 300;
     up_preferred_mentor_category := None; up_theme_preference := Some "dark"%string;
     up_created_at := 10; up_updated_at := 10 |}.

(** "Update user preferences" of the common queries, with a SET list that
    also assigns [updated_at] itself. *)
Definition set_preferences (stamp : timestamptz) (p : user_profile) : user_profile :=
  {| up_id := up_id p; up_display_name := up_display_name p; up_bio := up_bio p;
     up_preferred_meditation_duration := Some 600;
     up_preferred_mentor_category := Some "philosopher"%string;
     up_theme_preference := Some "light"%string;
     up_created_at := up_created_at p; up_updated_at := stamp |}.

(** ** Further tables of schema.sql and the helpers that write them *)

Record chat_message := {
  cm_id : uuid;
  cm_session_id : uuid;                (* REFERENCES chat_sessions(id) *)
  cm_role : string;                    (* VARCHAR(20) NOT NULL *)
  cm_content : string;
  cm_agent_persona : option string;    (* VARCHAR(255) *)
  cm_created_at : timestamptz
}.

Record meditation_session := {
  med_id : uuid;
  med_user_id : uuid;
  med_duration : option Z;
  med_completed : bool;                (* DEFAULT FALSE *)
  med_stage_reached : option string;
  med_created_at : timestamptz;
  med_completed_at : option timestamptz
}.

Record meditation_reflection := {
  mr_id : uuid;
  mr_session_id : uuid;                (* REFERENCES meditation_sessions(id) *)
  mr_reflection_text : option string;
  mr_ai_insight : option string;
  mr_emotional_state : option string;  (* VARCHAR(50) *)
  mr_created_at : timestamptz
}.

Record more_tables := {
  chat_messages : list chat_message;
  meditation_sessions : list meditation_session;
  meditation_reflections : list meditation_reflection;
  user_profiles : list user_profile
}.

Definition no_more_tables : more_tables :=
  {| chat_messages := []; meditation_sessions := [];
     meditation_reflections := []; user_profiles := [] |}.

Definition with_chat_messages (t : list chat_message) (m : more_tables) : more_tables :=
  {| chat_messages := t; meditation_sessions := meditation_sessions m;
     meditation_reflections := meditation_reflections m;
     user_profiles := user_profiles m |}.

Definition with_meditation_sessions (t : list meditation_session) (m : more_tables)
    : more_tables :=
  {| chat_messages := chat_messages m; meditation_sessions := t;
     meditation_reflections := meditation_reflections m;
     user_profiles := user_profiles m |}.

Definition with_meditation_reflections (t : list meditation_reflection)
    (m : more_tables) : more_tables :=
  {| chat_messages := chat_messages m; meditation_sessions := meditation_sessions m;
     meditation_reflections := t; user_profiles := user_profiles m |}.

Definition with_user_profiles (t : list user_profile) (m : more_tables) : more_tables :=
  {| chat_messages := chat_messages m; meditation_sessions := meditation_sessions m;
     meditation_reflections := meditation_reflections m; user_profiles := t |}.

(** The world of a request together with the further tables. *)
Record site := {
  s_world : world;
  s_more : more_tables
}.

Definition S (A : Type) : Type := site -> result exn A * site.

Definition sret {A} (a : A) : S A := fun s => (Ok a, s).

Definition sbind {A B} (m : S A) (k : A -> S B) : S B :=
  fun s =>
    match m s with
    | (Ok a, s') => k a s'
    | (Err e, s') => (Err e, s')
    end.

Declare Scope site_scope.
Delimit Scope site_scope with site.
Notation "x <- m ;; k" := (sbind m (fun x => k))
  (at level 61, m at next level, right associativity) : site_scope.
Notation "m ;;; k" := (sbind m (fun _ => k))
  (at level 61, right associativity) : site_scope.

(** A helper of the world, run on a site. *)
Definition on_world {A} (m : M A) : S A :=
  fun s =>
    let (r, w') := m (s_world s) in
    (r, {| s_world := w'; s_more := s_more s |}).

(** A provider call. *)
Definition slift {A} (r : result exn A) : S A :=
  fun s => (r, s).

(** A statement on the further tables; it may read the tables of the
    world (foreign keys). *)
Definition more_statement (A : Type) : Type :=
  timestamptz -> database -> more_tables -> result sql_error (A * more_tables).

(** [.execute()] for such a statement: the network and the clock are those
    of the world. *)
Definition execute_more {A} (stmt : more_statement A) : S A :=
  fun s =>
    match execute (fun _ now db => Ok (now, db)) (s_world s) with
    | (Ok now, w') =>
        match stmt now (w_db (s_world s)) (s_more s) with
        | Ok (a, m') => (Ok a, {| s_world := w'; s_more := m' |})
        | Err e => (Err (APIError e), {| s_world := w'; s_more := s_more s |})
        end
    | (Err e, w') => (Err e, {| s_world := w'; s_more := s_more s |})
    end.

(** [VARCHAR(n)]: a longer value is refused (SQLSTATE 22001). *)
Definition fits (n : nat) (v : string) : bool := Nat.leb (String.length v) n.

Definition fits_opt (n : nat) (v : option string) : bool :=
  match v with
  | Some x => fits n x
  | None => true
  end.

Definition too_long : sql_error :=
  SqlError "22001" "value too long for type character varying".

Definition foreign_key_violation : sql_error :=
  SqlError "23503" "insert or update on table violates foreign key constraint".

(** *** Chat messages (MIGRATION_GUIDE.md, section 3, and the common queries) *)

Definition insert_chat_message_stmt (session_id : uuid) (role content : string)
    (agent_persona : option string) : more_statement unit :=
  fun now db m =>
    if negb (fits 20 role && fits_opt 255 agent_persona) then Err too_long
    else if negb (existsb (fun s => Nat.eqb (cs_id s) session_id) (chat_sessions db))
    then Err foreign_key_violation
    else
      let t := chat_messages m in
      Ok (tt, with_chat_messages
                (t ++ [{| cm_id := fresh_uuid (map cm_id t);
                          cm_session_id := session_id;
                          cm_role := role;
                          cm_content := content;
                          cm_agent_persona := agent_persona;
                          cm_created_at := now |}]) m).

Definition save_chat_message (session_id : uuid) (role content : string)
    (agent_persona : option string) : S unit :=
  execute_more (insert_chat_message_stmt session_id role content agent_persona).

(** One element of [json_agg(json_build_object('role', cm.role, ..))]: every
    field is NULL when the LEFT JOIN found no message. *)
Record history_message := {
  hm_role : option string;
  hm_content : option string;
  hm_agent_persona : option string;
  hm_created_at : option timestamptz
}.

Record history_row := {
  h_session_id : uuid;
  h_session_name : option string;
  h_mentor_id : option string;
  h_started_at : timestamptz;
  h_messages : list history_message
}.

(** [chat_sessions cs LEFT JOIN chat_messages cm ON cs.id = cm.session_id],
    for one session: its messages, or one all-NULL row. *)
Definition left_join_messages (s : chat_session) (messages : list chat_message)
    : list (option chat_message) :=
  match filter (fun c => Nat.eqb (cs_id s) (cm_session_id c)) messages with
  | [] => [None]
  | l => map Some l
  end.

Definition build_history_message (c : option chat_message) : history_message :=
  match c with
  | Some c => {| hm_role := Some (cm_role c); hm_content := Some (cm_content c);
                 hm_agent_persona := cm_agent_persona c;
                 hm_created_at := Some (cm_created_at c) |}
  | None => {| hm_role := None; hm_content := None; hm_agent_persona := None;
               hm_created_at := None |}
  end.

(** [ORDER BY cm.created_at] inside the aggregate: ascending, NULLS LAST. *)
Definition message_asc (a b : option chat_message) : bool :=
  match a, b with
  | Some x, Some y => cm_created_at x <=? cm_created_at y
  | Some _, None => true
  | None, Some _ => false
  | None, None => true
  end.

(** "Get chat history for a session" of the common queries. [GROUP BY
    cs.id] groups by the primary key: one group per session row. *)
Definition chat_history (user session : uuid) (sessions : list chat_session)
    (messages : list chat_message) : list history_row :=
  map (fun s =>
         {| h_session_id := cs_id s;
            h_session_name := cs_session_name s;
            h_mentor_id := cs_mentor_id s;
            h_started_at := cs_started_at s;
            h_messages :=
              map build_history_message
                  (order_by message_asc (left_join_messages s messages)) |})
      (sql_where (fun s => sql_and (Some (Nat.eqb (cs_user_id s) user))
                                   (Some (Nat.eqb (cs_id s) session)))
                 sessions).

(** *** Profiles (MIGRATION_GUIDE.md, section 5) *)

Record UserProfileUpdate := {
  display_name : option string;
  bio : option string;
  preferred_meditation_duration : option Z;
  preferred_mentor_category : option string;
  theme_preference : option string
}.

(** [.eq('id', ..)] on [user_profiles]. *)
Definition has_id (user : uuid) (p : user_profile) : sql_bool :=
  Some (Nat.eqb (up_id p) user).

(** [.select('*').eq('id', ..).single()] *)
Definition select_profile_single (id : uuid) : more_statement user_profile :=
  fun _ _ m =>
    match sql_where (fun p => Some (Nat.eqb (up_id p) id)) (user_profiles m) with
    | [p] => Ok (p, m)
    | _ => Err (SqlError "PGRST116"
                  "JSON object requested, multiple (or no) rows returned")
    end.

(** [.insert({'id': user_id})]: the other columns take their defaults; the
    primary key refuses an id that is taken (SQLSTATE 23505). *)
Definition insert_default_profile (id : uuid) : more_statement user_profile :=
  fun now _ m =>
    if existsb (fun p => Nat.eqb (up_id p) id) (user_profiles m)
    then Err (SqlError "23505" "duplicate key value violates unique constraint")
    else
      let p := {| up_id := id; up_display_name := None; up_bio := None;
                  up_preferred_meditation_duration := Some 300;
                  up_preferred_mentor_category := None;
                  up_theme_preference := Some "dark"%string;
                  up_created_at := now; up_updated_at := now |} in
      Ok (p, with_user_profiles (user_profiles m ++ [p]) m).

(** [get_profile]. Its [if not result.data:] branch, which would create the
    default profile, is behind [.single()], which has raised already when
    there is no row. *)
Definition get_profile (user_id : uuid) : S user_profile :=
  execute_more (select_profile_single user_id).

Definition or_else {A} (given : option A) (stored : option A) : option A :=
  match given with
  | Some v => Some v
  | None => stored
  end.

(** [DO UPDATE SET col = EXCLUDED.col] for the keys of
    [{'id': user_id, **{k: v for k, v in profile.dict().items() if v is not None}}]. *)
Definition profile_set_excluded (u : UserProfileUpdate) (p : user_profile) : user_profile :=
  {| up_id := up_id p;
     up_display_name := or_else (display_name u) (up_display_name p);
     up_bio := or_else (bio u) (up_bio p);
     up_preferred_meditation_duration :=
       or_else (preferred_meditation_duration u) (up_preferred_meditation_duration p);
     up_preferred_mentor_category :=
       or_else (preferred_mentor_category u) (up_preferred_mentor_category p);
     up_theme_preference := or_else (theme_preference u) (up_theme_preference p);
     up_created_at := up_created_at p;
     up_updated_at := up_updated_at p |}.

(** The row an INSERT of that payload builds: absent keys take the column
    defaults. *)
Definition profile_of_payload (now : timestamptz) (id : uuid) (u : UserProfileUpdate)
    : user_profile :=
  {| up_id := id;
     up_display_name := display_name u;
     up_bio := bio u;
     up_preferred_meditation_duration :=
       or_else (preferred_meditation_duration u) (Some 300);
     up_preferred_mentor_category := preferred_mentor_category u;
     up_theme_preference := or_else (theme_preference u) (Some "dark"%string);
     up_created_at := now; up_updated_at := now |}.

(** [.upsert({...})] with no [on_conflict]: the conflict target is the
    primary key. Returns the written row, [.data[0]]. *)
Definition upsert_profile (id : uuid) (u : UserProfileUpdate) : more_statement user_profile :=
  fun now _ m =>
    if negb (fits_opt 255 (display_name u) && fits_opt 50 (preferred_mentor_category u)
             && fits_opt 20 (theme_preference u))
    then Err too_long
    else
      let t := user_profiles m in
      match sql_where (fun p => Some (Nat.eqb (up_id p) id)) t with
      | [] =>
          let p := profile_of_payload now id u in
          Ok (p, with_user_profiles (t ++ [p]) m)
      | old :: _ =>
          Ok (update_updated_at_column now (profile_set_excluded u old),
              with_user_profiles
                (update_with_trigger now (fun p => Some (Nat.eqb (up_id p) id))
                                     (profile_set_excluded u) t) m)
      end.

Definition update_profile (user_id : uuid) (profile : UserProfileUpdate) : S user_profile :=
  execute_more (upsert_profile user_id profile).

(** *** Meditation reflections (MIGRATION_GUIDE.md, section 4) *)

Definition newline : string := String (Ascii.ascii_of_nat 10) EmptyString.

Module MeditationRouter.

(** The request model is not among the sources; its fields are those the
    handler reads, [emotional_state] being a string. *)
Record MeditationReflectionRequest := {
  user_id : uuid;
  reflection : string;
  duration : option Z;
  emotional_state : string;
  save_to_journal : bool
}.

Record reflection_response := {
  insight : string;
  session_id : uuid;
  saved : bool
}.

Definition incomplete_condition (user : uuid) (s : meditation_session) : sql_bool :=
  sql_and (Some (Nat.eqb (med_user_id s) user))
          (Some (Bool.eqb (med_completed s) false)).

Definition med_created_desc (a b : meditation_session) : bool :=
  med_created_at b <=? med_created_at a.

(** [.eq('user_id', ..).eq('completed', False).order('created_at', desc=True).limit(1)] *)
Definition select_incomplete_session (user : uuid)
    : more_statement (list meditation_session) :=
  fun _ _ m =>
    Ok (firstn 1 (order_by med_created_desc
                    (sql_where (incomplete_condition user) (meditation_sessions m))), m).

(** [.insert({'user_id', 'duration', 'completed': True, 'completed_at': 'now()'})];
    returns the inserted row, [.data[0]]. *)
Definition insert_completed_session (user : uuid) (d : option Z)
    : more_statement meditation_session :=
  fun now _ m =>
    let t := meditation_sessions m in
    let r := {| med_id := fresh_uuid (map med_id t); med_user_id := user;
                med_duration := d; med_completed := true;
                med_stage_reached := None; med_created_at := now;
                med_completed_at := Some now |} in
    Ok (r, with_meditation_sessions (t ++ [r]) m).

Definition set_completed (now : timestamptz) (s : meditation_session)
    : meditation_session :=
  {| med_id := med_id s; med_user_id := med_user_id s; med_duration := med_duration s;
     med_completed := true; med_stage_reached := med_stage_reached s;
     med_created_at := med_created_at s; med_completed_at := Some now |}.

(** [.update({'completed': True, 'completed_at': 'now()'}).eq('id', ..)] *)
Definition complete_session (id : uuid) : more_statement unit :=
  fun now _ m =>
    Ok (tt, with_meditation_sessions
              (sql_update (fun s => Some (Nat.eqb (med_id s) id)) (set_completed now)
                          (fun r => r) (meditation_sessions m)) m).

Definition insert_reflection (session : uuid) (text ai_insight emotional : string)
    : more_statement unit :=
  fun now _ m =>
    if negb (fits 50 emotional) then Err too_long
    else if negb (existsb (fun s => Nat.eqb (med_id s) session) (meditation_sessions m))
    then Err foreign_key_violation
    else
      let t := meditation_reflections m in
      Ok (tt, with_meditation_reflections
                (t ++ [{| mr_id := fresh_uuid (map mr_id t);
                          mr_session_id := session;
                          mr_reflection_text := Some text;
                          mr_ai_insight := Some ai_insight;
                          mr_emotional_state := Some emotional;
                          mr_created_at := now |}]) m).

(** [f"Meditation Reflection:\n{request.reflection}\n\nInsight: {insight}"] *)
Definition journal_content (text ai_insight : string) : string :=
  ("Meditation Reflection:" ++ newline ++ text ++ newline ++ newline
   ++ "Insight: " ++ ai_insight)%string.

Section Providers.

(** The generation provider behind [generate_insight], and the embedding
    helper, neither among the sources: any outcome is allowed. *)
Variable generate_insight : string -> result exn string.
Variable get_embedding : string -> result exn (option vector).

Definition save_reflection (request : MeditationReflectionRequest)
    : S reflection_response :=
  (ai_insight <- slift (generate_insight (reflection request)) ;;
   session <- execute_more (select_incomplete_session (user_id request)) ;;
   id <- match session with
         | [] =>
             new <- execute_more (insert_completed_session (user_id request)
                                    (duration request)) ;;
             sret (med_id new)
         | s :: _ =>
             execute_more (complete_session (med_id s)) ;;;
             sret (med_id s)
         end ;;
   execute_more (insert_reflection id (reflection request) ai_insight
                   (emotional_state request)) ;;;
   (if save_to_journal request then
      embedding <- slift (get_embedding
                            (journal_content (reflection request) ai_insight)) ;;
      on_world (execute (insert_journal_entry_stmt (user_id request)
                           (journal_content (reflection request) ai_insight)
                           embedding
                           (Some ["meditative"%string; emotional_state request]))) ;;;
      sret tt
    else sret tt) ;;;
   sret {| insight := ai_insight; session_id := id; saved := true |})%site.

End Providers.

End MeditationRouter.

(** *** The meditation timer (frontend, zen meditation page) *)

(** [Math.floor((duration * 60 - timeRemaining) / (duration * 60 / 5))], for
    a duration in minutes and the seconds that remain. The numbers are
    integers small enough for the floating-point quotient to have the
    integer part of the exact one. *)
Definition stage_index (duration timeRemaining : Z) : Z :=
  (duration * 60 - timeRemaining) / (duration * 60 / 5).

(** The durations the page offers. *)
Definition durations : list Z := [5; 10; 15; 20; 30].

(** The caption history of that page: the updater passed to
    [setCaptionHistory] when a new line arrives, [prevLine] being the line
    shown until then. *)
Definition maxHistoryLines : nat := 5.

(** [l.slice(-n)]: the last [n] elements, or all of a shorter array. *)
Definition slice_last {A} (n : nat) (l : list A) : list A :=
  skipn (List.length l - n) l.

Definition push_caption (prevHistory : list string) (prevLine : string) : list string :=
  if existsb (String.eqb prevLine) prevHistory then prevHistory
  else slice_last maxHistoryLines (prevHistory ++ [prevLine]).

(** The history after the updater ran for a sequence of displaced lines,
    from the empty history that [startStreamingStage] sets. *)
Definition caption_history (lines : list string) : list string :=
  fold_left push_caption lines [].

(** *** Sample data for the further tables *)

Definition sample_site (faults : list (option exn)) : site :=
  {| s_world := world_of schema_sql
                  (with_chat_sessions [sample_session 1%nat 7%nat 10 None] sample_database)
                  faults;
     s_more := no_more_tables |}.

Definition sample_update : UserProfileUpdate :=
  {| display_name := Some "Ada"%string; bio := None;
     preferred_meditation_duration := Some 600;
     preferred_mentor_category := None; theme_preference := None |}.

Definition sample_reflection_request : MeditationRouter.MeditationReflectionRequest :=
  {| MeditationRouter.user_id := 7%nat;
     MeditationRouter.reflection := "I felt calm";
     MeditationRouter.duration := Some 600;
     MeditationRouter.emotional_state := "peaceful";
     MeditationRouter.save_to_journal := true |}.

Definition sample_insight (text : string) : result exn string :=
  Ok ("Noted: " ++ text)%string.

Definition sample_get_embedding (text : string) : result exn (option vector) :=
  Ok None.

Definition sample_entry_2 : journal_entry :=
  sample_entry 2%nat 7%nat "I went for a walk and felt calm" (Some [0; 1]%Q) false 200.

Definition sample_entry_1 : journal_entry :=
  sample_entry 1%nat 7%nat "I feel anxious about work" (Some [1; 0]%Q) false 100.

Definition sample_state_row (id : uuid) (state : json) (updated : timestamptz)
    : conversation_row :=
  {| ch_id := id; ch_user_id := 7%nat; ch_session_key := "default";
     ch_agent_state := Some state; ch_last_agent := None;
     ch_created_at := 5; ch_updated_at := updated |}.

(** Two rows for one key, as the README's save leaves them. *)
Definition sample_history_database : database :=
  with_conversation_history
    [sample_state_row 1%nat sample_state 10; sample_state_row 2%nat sample_state' 20]
    empty_database.

Definition sample_chat_message (id session : uuid) (role content : string)
    (created : timestamptz) : chat_message :=
  {| cm_id := id; cm_session_id := session; cm_role := role; cm_content := content;
     cm_agent_persona := None; cm_created_at := created |}.

Definition sample_chat_site : site :=
  {| s_world := world_of schema_sql
                  (with_chat_sessions [sample_session 1%nat 7%nat 10 None] sample_database)
                  [];
     s_more := with_chat_messages
                 [sample_chat_message 1%nat 1%nat "user" "hello" 20;
                  sample_chat_message 2%nat 1%nat "assistant" "welcome" 30]
                 no_more_tables |}.

Definition sample_profile_site : site :=
  {| s_world := world_of schema_sql sample_database [];
     s_more := with_user_profiles [sample_profile] no_more_tables |}.

Definition sample_meditation (id : uuid) (completed : bool) (created : timestamptz)
    : meditation_session :=
  {| med_id := id; med_user_id := 7%nat; med_duration := Some 600;
     med_completed := completed; med_stage_reached := None;
     med_created_at := created; med_completed_at := None |}.

(** An old and a new incomplete session of user 7. *)
Definition sample_meditation_site : site :=
  {| s_world := world_of schema_sql sample_database [];
     s_more := with_meditation_sessions
                 [sample_meditation 1%nat false 100; sample_meditation 2%nat false 200]
                 no_more_tables |}.

Definition sample_embedding_down (text : string) : result exn (option vector) :=
  Err (ProviderError "429 quota exceeded").

(* ================================================================== *)
(** * Part II. Theorems *)
(* ================================================================== *)

(** ** ORDER BY, WHERE and LIMIT *)

Section OrderBy.

Context {A : Type}.
Variable le : A -> A -> bool.

Lemma insert_by_perm x l : Permutation (insert_by le x l) (x :: l).
Proof.
  induction l as [|y l IH]; simpl.
  - apply Permutation_refl.
  - destruct (le x y).
    + apply Permutation_refl.
    + eapply Permutation_trans.
      * apply perm_skip. exact IH.
      * apply perm_swap.
Qed.

Lemma order_by_perm l : Permutation (order_by le l) l.
Proof.
  induction l as [|x l IH]; simpl.
  - apply perm_nil.
  - eapply Permutation_trans.
    + apply insert_by_perm.
    + apply perm_skip. exact IH.
Qed.

Lemma order_by_In x l : In x (order_by le l) <-> In x l.
Proof.
  split; apply Permutation_in.
  - apply order_by_perm.
  - apply Permutation_sym, order_by_perm.
Qed.

Lemma order_by_length l : List.length (order_by le l) = List.length l.
Proof. apply Permutation_length, order_by_perm. Qed.

Hypothesis le_total : forall a b, le a b = true \/ le b a = true.
Hypothesis le_trans : forall a b c, le a b = true -> le b c = true -> le a c = true.

Lemma insert_by_sorted x l :
  StronglySorted (fun a b => le a b = true) l ->
  StronglySorted (fun a b => le a b = true) (insert_by le x l).
Proof.
  induction 1 as [|y l Hs IH Hall]; simpl.
  - constructor; constructor.
  - destruct (le x y) eqn:Hxy.
    + constructor.
      * constructor; assumption.
      * constructor; [exact Hxy|].
        rewrite Forall_forall in *. intros z Hz. eauto.
    + constructor; [exact IH|].
      rewrite Forall_forall in *. intros z Hz.
      apply (Permutation_in _ (insert_by_perm x l)) in Hz.
      destruct Hz as [<-|Hz]; [|auto].
      destruct (le_total x y) as [H|H]; congruence.
Qed.

Lemma order_by_sorted l : StronglySorted (fun a b => le a b = true) (order_by le l).
Proof.
  induction l; simpl; [constructor | apply insert_by_sorted; assumption].
Qed.

End OrderBy.

Lemma StronglySorted_firstn {A} (R : A -> A -> Prop) n l :
  StronglySorted R l -> StronglySorted R (firstn n l).
Proof.
  intros H. revert n. induction H as [|x l Hs IH Hall]; intros [|n]; simpl;
    try constructor.
  - apply IH.
  - rewrite Forall_forall in *. intros y Hy. apply Hall.
    revert Hy. clear. revert n. induction l as [|z l IHl]; intros [|n]; simpl; try tauto.
    intros [->|H]; [left; reflexivity | right; eauto].
Qed.

Lemma In_firstn {A} (x : A) n l : In x (firstn n l) -> In x l.
Proof.
  revert n. induction l as [|z l IHl]; intros [|n]; simpl; try tauto.
  intros [->|H]; [left; reflexivity | right; eauto].
Qed.

Lemma StronglySorted_map_In {A B} (R : A -> A -> Prop) (R' : B -> B -> Prop)
    (f : A -> B) l :
  (forall a b, In a l -> In b l -> R a b -> R' (f a) (f b)) ->
  StronglySorted R l -> StronglySorted R' (map f l).
Proof.
  intros Hf H. induction H as [|x l Hs IH Hall]; simpl; constructor.
  - apply IH. intros a b Ha Hb. apply Hf; right; assumption.
  - rewrite Forall_forall in *. intros y Hy.
    apply in_map_iff in Hy. destruct Hy as (a & <- & Ha).
    apply Hf; [left; reflexivity | right; assumption | auto].
Qed.

Lemma filter_map_same {A} (p : A -> bool) (f : A -> A) l :
  (forall x, p (f x) = p x) -> filter p (map f l) = map f (filter p l).
Proof.
  intros Hp. induction l as [|x l IH]; simpl; [reflexivity|].
  rewrite Hp. destruct (p x); simpl; rewrite IH; reflexivity.
Qed.

Lemma sql_where_In {A} (c : A -> sql_bool) (t : list A) x :
  In x (sql_where c t) <-> In x t /\ c x = Some true.
Proof.
  unfold sql_where. rewrite filter_In. unfold sql_true.
  destruct (c x) as [[|]|]; intuition congruence.
Qed.

Lemma sql_and_true a b : sql_and a b = Some true <-> a = Some true /\ b = Some true.
Proof.
  destruct a as [[|]|], b as [[|]|]; simpl; intuition congruence.
Qed.

Lemma sql_limit_ok {A} (n : Z) (l : list A) :
  match sql_limit n l with
  | Ok rows => 0 <= n /\ rows = firstn (Z.to_nat n) l
  | Err _ => n < 0
  end.
Proof.
  unfold sql_limit. destruct (n <? 0) eqn:H.
  - apply Z.ltb_lt in H. exact H.
  - apply Z.ltb_ge in H. auto.
Qed.

Lemma Qlt_bool_iff x y : Qlt_bool x y = true <-> (x < y)%Q.
Proof.
  unfold Qlt_bool. rewrite negb_true_iff. split.
  - intros H. apply Qnot_le_lt. intros Hle.
    apply Qle_bool_iff in Hle. congruence.
  - intros H. destruct (Qle_bool y x) eqn:E; [|reflexivity].
    apply Qle_bool_iff in E. exfalso. apply (Qlt_not_le _ _ H). exact E.
Qed.

Lemma float_asc_total x y : float_asc x y = true \/ float_asc y x = true.
Proof.
  destruct x as [a|], y as [b|]; simpl; auto.
  destruct (Qlt_le_dec b a) as [H|H].
  - right. apply Qle_bool_iff. apply Qlt_le_weak. exact H.
  - left. apply Qle_bool_iff. exact H.
Qed.

Lemma float_asc_trans x y z :
  float_asc x y = true -> float_asc y z = true -> float_asc x z = true.
Proof.
  destruct x as [a|], y as [b|], z as [c|]; simpl; try congruence.
  rewrite !Qle_bool_iff. apply Qle_trans.
Qed.

(** ** Journal Store: similarity search *)

Section SimilaritySearch.

Variable cosine_distance : vector -> vector -> Q.

Lemma match_condition_true q threshold owner e :
  match_condition cosine_distance q threshold owner e = Some true ->
  je_user_id e = owner /\ je_is_archived e = false /\
  exists v, je_embedding e = Some v /\
            distance_to cosine_distance q e = Some (cosine_distance v q) /\
            (threshold < 1 - cosine_distance v q)%Q.
Proof.
  unfold match_condition. rewrite !sql_and_true.
  intros [[[Hu Ha] Hn] Hgt].
  injection Hu as Hu. apply Nat.eqb_eq in Hu.
  injection Ha as Ha. apply eqb_prop in Ha.
  unfold distance_to in *. destruct (je_embedding e) as [v|]; [|discriminate].
  simpl in Hgt. injection Hgt as Hgt. apply Qlt_bool_iff in Hgt.
  repeat split; try assumption. exists v. auto.
Qed.

(** Later in the order of distance means not more similar. *)
Lemma closer_is_more_similar q threshold owner a b :
  match_condition cosine_distance q threshold owner a = Some true ->
  match_condition cosine_distance q threshold owner b = Some true ->
  float_asc (distance_to cosine_distance q a) (distance_to cosine_distance q b) = true ->
  exists x y,
    m_similarity (match_select cosine_distance q a) = Some x /\
    m_similarity (match_select cosine_distance q b) = Some y /\ (y <= x)%Q.
Proof.
  intros Ha Hb Hle.
  apply match_condition_true in Ha. destruct Ha as (_ & _ & va & _ & Hda & _).
  apply match_condition_true in Hb. destruct Hb as (_ & _ & vb & _ & Hdb & _).
  simpl. rewrite Hda, Hdb in *. simpl in *.
  apply Qle_bool_iff in Hle.
  eexists; eexists; repeat split. lra.
Qed.

(** Where the rows of a result come from. *)
Lemma match_rows_from t q threshold n owner rows m :
  match_journal_entries cosine_distance t q threshold n owner = Ok rows ->
  In m rows ->
  exists e, In e t /\ m = match_select cosine_distance q e /\
            match_condition cosine_distance q threshold owner e = Some true.
Proof.
  unfold match_journal_entries. intros H Hm.
  destruct (sql_limit n _) as [l|err] eqn:E; [|discriminate].
  injection H as <-.
  pose proof (sql_limit_ok n
    (order_by (fun a b => float_asc (distance_to cosine_distance q a)
                                    (distance_to cosine_distance q b))
       (sql_where (match_condition cosine_distance q threshold owner) t))) as Hl.
  rewrite E in Hl. destruct Hl as [_ ->].
  apply in_map_iff in Hm. destruct Hm as (e & <- & He).
  apply In_firstn, order_by_In, sql_where_In in He.
  exists e. tauto.
Qed.

(** C1. For every table, query embedding, threshold t, limit n and owner,
    [match_journal_entries] is refused only for a negative limit; otherwise
    every returned row comes from an entry of the table that is owned by
    that owner, is not archived and has an embedding, its similarity is
    1 - cosine distance to the query and strictly exceeds t, the rows are
    ordered by similarity descending, and there are at most n of them. *)
Theorem match_journal_entries_spec :
  forall (t : list journal_entry) (q : vector) (threshold : Q) (n : Z) (owner : uuid),
    match match_journal_entries cosine_distance t q threshold n owner with
    | Ok rows =>
        (forall m, In m rows ->
           exists e v,
             In e t /\ m_id m = je_id e /\ m_content m = je_content e /\
             m_created_at m = je_created_at e /\
             je_user_id e = owner /\ je_is_archived e = false /\
             je_embedding e = Some v /\
             m_similarity m = Some (1 - cosine_distance v q)%Q /\
             (threshold < 1 - cosine_distance v q)%Q)
        /\ StronglySorted
             (fun a b => exists x y,
                  m_similarity a = Some x /\ m_similarity b = Some y /\ (y <= x)%Q)
             rows
        /\ Z.of_nat (List.length rows) <= n
    | Err _ => n < 0
    end.
Proof.
  intros t q threshold n owner. unfold match_journal_entries.
  pose proof (sql_limit_ok n
    (order_by (fun a b => float_asc (distance_to cosine_distance q a)
                                    (distance_to cosine_distance q b))
       (sql_where (match_condition cosine_distance q threshold owner) t))) as Hl.
  destruct (sql_limit n _) as [rows|err]; [|exact Hl].
  destruct Hl as [Hn ->]. split; [|split].
  - intros m Hm. apply in_map_iff in Hm. destruct Hm as (e & <- & He).
    apply In_firstn, order_by_In, sql_where_In in He. destruct He as [He Hc].
    apply match_condition_true in Hc.
    destruct Hc as (Hu & Ha & v & Hv & Hd & Hgt).
    exists e, v. simpl. rewrite Hd. simpl. repeat split; assumption.
  - apply StronglySorted_map_In
      with (R := fun a b => float_asc (distance_to cosine_distance q a)
                                      (distance_to cosine_distance q b) = true).
    + intros a b Ha Hb Hle.
      apply In_firstn, order_by_In, sql_where_In in Ha.
      apply In_firstn, order_by_In, sql_where_In in Hb.
      eapply closer_is_more_similar; [apply Ha | apply Hb | exact Hle].
    + apply StronglySorted_firstn.
      apply (order_by_sorted
               (fun a b => float_asc (distance_to cosine_distance q a)
                                     (distance_to cosine_distance q b))).
      * intros a b. apply float_asc_total.
      * intros a b c. apply float_asc_trans.
  - rewrite length_map.
    pose proof (firstn_le_length (Z.to_nat n)
      (order_by (fun a b => float_asc (distance_to cosine_distance q a)
                                      (distance_to cosine_distance q b))
         (sql_where (match_condition cosine_distance q threshold owner) t))) as H.
    lia.
Qed.

(** Nothing that qualifies is left out when the limit is large enough. *)
Lemma match_journal_entries_complete t q threshold n owner e :
  In e t ->
  match_condition cosine_distance q threshold owner e = Some true ->
  Z.of_nat (List.length t) <= n ->
  exists rows,
    match_journal_entries cosine_distance t q threshold n owner = Ok rows /\
    In (match_select cosine_distance q e) rows.
Proof.
  intros He Hc Hn. unfold match_journal_entries, sql_limit.
  destruct (n <? 0) eqn:E; [apply Z.ltb_lt in E; lia|].
  eexists; split; [reflexivity|].
  apply in_map. rewrite firstn_all2.
  - apply order_by_In, sql_where_In. auto.
  - rewrite order_by_length. unfold sql_where.
    pose proof (filter_length_le
      (fun r => sql_true (match_condition cosine_distance q threshold owner r)) t).
    lia.
Qed.

End SimilaritySearch.

(** ** Journal Store: recent entries, archiving, ingestion *)

Lemma recent_condition_true owner e :
  recent_condition owner e = Some true <->
  je_user_id e = owner /\ je_is_archived e = false.
Proof.
  unfold recent_condition. rewrite sql_and_true. split.
  - intros [Hu Ha]. injection Hu as Hu. injection Ha as Ha.
    apply Nat.eqb_eq in Hu. apply eqb_prop in Ha. auto.
  - intros [-> ->]. rewrite Nat.eqb_refl. auto.
Qed.

Lemma recent_rows_from t owner n rows m :
  get_recent_journal_entries t owner n = Ok rows ->
  In m rows ->
  exists e, In e t /\ m = recent_select e /\ recent_condition owner e = Some true.
Proof.
  unfold get_recent_journal_entries. intros H Hm.
  destruct (sql_limit n _) as [l|err] eqn:E; [|discriminate].
  injection H as <-.
  pose proof (sql_limit_ok n
    (order_by created_desc (sql_where (recent_condition owner) t))) as Hl.
  rewrite E in Hl. destruct Hl as [_ ->].
  apply in_map_iff in Hm. destruct Hm as (e & <- & He).
  apply In_firstn, order_by_In, sql_where_In in He.
  exists e. tauto.
Qed.

Lemma created_desc_total a b : created_desc a b = true \/ created_desc b a = true.
Proof. unfold created_desc. rewrite !Z.leb_le. lia. Qed.

Lemma created_desc_trans a b c :
  created_desc a b = true -> created_desc b c = true -> created_desc a c = true.
Proof. unfold created_desc. rewrite !Z.leb_le. lia. Qed.

(** The newest entry comes first. *)
Lemma order_by_newest_first (x : journal_entry) l :
  In x l ->
  (forall y, In y l -> y = x \/ je_created_at y < je_created_at x) ->
  exists rest, order_by created_desc l = x :: rest.
Proof.
  intros Hx Hmax.
  pose proof (order_by_sorted created_desc created_desc_total created_desc_trans l) as Hs.
  pose proof (fun y => order_by_In created_desc y l) as Hin.
  destruct (order_by created_desc l) as [|h rest].
  - apply Hin in Hx. destruct Hx.
  - exists rest. f_equal.
    assert (Hh : In h l) by (apply Hin; left; reflexivity).
    destruct (Hmax h Hh) as [->|Hlt]; [reflexivity|].
    apply Hin in Hx. destruct Hx as [->|Hx]; [reflexivity|].
    inversion Hs as [|? ? _ Hall]; subst.
    rewrite Forall_forall in Hall. specialize (Hall x Hx).
    unfold created_desc in Hall. apply Z.leb_le in Hall. lia.
Qed.

Lemma in_le_list_max i l : In i l -> (i <= list_max l)%nat.
Proof.
  intros H. pose proof (list_max_le l (list_max l)) as [Hle _].
  specialize (Hle (Nat.le_refl _)).
  rewrite Forall_forall in Hle. auto.
Qed.

Lemma fresh_uuid_not_in ids : ~ In (fresh_uuid ids) ids.
Proof.
  intros H. apply in_le_list_max in H. unfold fresh_uuid in H. lia.
Qed.

Lemma sql_update_In {row} (c : row -> sql_bool) (set_ tr : row -> row) t r' :
  In r' (sql_update c set_ tr t) <->
  exists r, In r t /\ r' = (if sql_true (c r) then tr (set_ r) else r).
Proof.
  unfold sql_update. rewrite in_map_iff. split; intros (r & H1 & H2); exists r; auto.
Qed.

(** Archiving keeps every row, with its id and text, and never clears the
    flag. *)
Lemma archive_older_than_rows now age owner t r' :
  In r' (archive_older_than now age owner t) ->
  exists r, In r t /\ je_id r' = je_id r /\ je_content r' = je_content r /\
            (je_is_archived r = true -> je_is_archived r' = true) /\
            (archive_condition now age owner r = Some true -> je_is_archived r' = true).
Proof.
  unfold archive_older_than. intros H. apply sql_update_In in H.
  destruct H as (r & Hr & ->). exists r. split; [exact Hr|].
  unfold sql_true. destruct (archive_condition now age owner r) as [[|]|];
    simpl; repeat split; auto; discriminate.
Qed.

Lemma archive_older_than_keeps now age owner t r :
  In r t ->
  exists r', In r' (archive_older_than now age owner t) /\
             je_id r' = je_id r /\ je_content r' = je_content r /\
             (je_is_archived r = true -> je_is_archived r' = true) /\
             (archive_condition now age owner r = Some true -> je_is_archived r' = true).
Proof.
  intros Hr.
  exists (if sql_true (archive_condition now age owner r) then set_archived r else r).
  split.
  - unfold archive_older_than. apply sql_update_In. exists r. auto.
  - unfold sql_true. destruct (archive_condition now age owner r) as [[|]|];
      simpl; repeat split; auto; discriminate.
Qed.

(** What "the entry [i] with text [c] is archived for good" means for a
    table: a row with that id and text is there and flagged, and no row
    with that id is unflagged. *)
Definition archived_in (i : uuid) (c : string) (t : list journal_entry) : Prop :=
  (exists r, In r t /\ je_id r = i /\ je_content r = c /\ je_is_archived r = true) /\
  (forall r, In r t -> je_id r = i -> je_is_archived r = true).

Lemma archived_in_run_op i c op t :
  archived_in i c t -> archived_in i c (journal_run_op op t).
Proof.
  intros [(r & Hr & Hi & Hc & Ha) Hall]. destruct op as [now u txt e m | now age u]; simpl.
  - split.
    + exists r. rewrite in_app_iff. auto.
    + intros r' Hr' Hi'. apply in_app_iff in Hr'. destruct Hr' as [Hr'|[<-|[]]].
      * auto.
      * simpl in Hi'. exfalso. apply (fresh_uuid_not_in (map je_id t)).
        rewrite Hi', <- Hi. apply in_map. exact Hr.
  - split.
    + destruct (archive_older_than_keeps now age u t r Hr) as (r' & Hr' & Hi' & Hc' & Ha' & _).
      exists r'. repeat split; try congruence. auto.
    + intros r' Hr' Hi'. apply archive_older_than_rows in Hr'.
      destruct Hr' as (r0 & Hr0 & Hi0 & _ & Ha0 & _).
      apply Ha0, Hall; congruence.
Qed.

Lemma archived_in_run i c ops t :
  archived_in i c t -> archived_in i c (journal_run ops t).
Proof.
  unfold journal_run. revert t. induction ops as [|op ops IH]; simpl; intros t H.
  - exact H.
  - apply IH, archived_in_run_op, H.
Qed.

Lemma NoDup_map_eq {A B} (f : A -> B) l x y :
  NoDup (map f l) -> In x l -> In y l -> f x = f y -> x = y.
Proof.
  induction l as [|z l IH]; simpl; intros Hnd Hx Hy Hf; [destruct Hx|].
  inversion Hnd as [|? ? Hz Hnd']; subst.
  destruct Hx as [->|Hx], Hy as [->|Hy]; auto.
  - exfalso. apply Hz. rewrite Hf. apply in_map. exact Hy.
  - exfalso. apply Hz. rewrite <- Hf. apply in_map. exact Hx.
Qed.

Section ArchiveAndIngest.

Variable cosine_distance : vector -> vector -> Q.
Variable embed : string -> result exn vector.

(** C6. Once [archive_older_than] has marked an entry (a row of a table
    whose ids are distinct, as the primary key has it), then after any
    further inserts and archive runs the entry's id is in no result of
    [get_recent_journal_entries] or [match_journal_entries], whatever their
    arguments, while a row with that id and text is still in the table,
    flagged as archived. *)
Theorem archived_never_reappears :
  forall (t : list journal_entry) (now : timestamptz) (age : Z) (owner : uuid)
         (e : journal_entry) (ops : list journal_op),
    NoDup (map je_id t) ->
    In e t ->
    archive_condition now age owner e = Some true ->
    let t' := journal_run ops (archive_older_than now age owner t) in
    (exists r, In r t' /\ je_id r = je_id e /\ je_content r = je_content e /\
               je_is_archived r = true)
    /\ (forall q threshold n u rows,
          match_journal_entries cosine_distance t' q threshold n u = Ok rows ->
          ~ In (je_id e) (map m_id rows))
    /\ (forall u n rows,
          get_recent_journal_entries t' u n = Ok rows ->
          ~ In (je_id e) (map rr_id rows)).
Proof.
  intros t now age owner e ops Hnd He Hc t'.
  assert (Hinv : archived_in (je_id e) (je_content e) t').
  { apply archived_in_run. split.
    - destruct (archive_older_than_keeps now age owner t e He)
        as (r' & Hr' & Hi & Hcn & _ & Ha).
      exists r'. auto.
    - intros r' Hr' Hi. apply archive_older_than_rows in Hr'.
      destruct Hr' as (r0 & Hr0 & Hi0 & _ & _ & Ha).
      apply Ha. assert (r0 = e) as ->; [|exact Hc].
      apply (NoDup_map_eq je_id t); auto. congruence. }
  destruct Hinv as [Hex Hall]. split; [exact Hex|]. split.
  - intros q threshold n u rows Hrows Hin.
    apply in_map_iff in Hin. destruct Hin as (m & Hid & Hm).
    destruct (match_rows_from cosine_distance _ _ _ _ _ _ _ Hrows Hm)
      as (e' & He' & -> & Hcond).
    apply match_condition_true in Hcond. destruct Hcond as (_ & Hna & _).
    simpl in Hid. rewrite (Hall e' He' Hid) in Hna. discriminate.
  - intros u n rows Hrows Hin.
    apply in_map_iff in Hin. destruct Hin as (m & Hid & Hm).
    destruct (recent_rows_from _ _ _ _ _ Hrows Hm) as (e' & He' & -> & Hcond).
    apply recent_condition_true in Hcond. destruct Hcond as [_ Hna].
    simpl in Hid. rewrite (Hall e' He' Hid) in Hna. discriminate.
Qed.

Lemma get_embedding_soft_fail text err w :
  embed text = Err err ->
  exists line,
    get_embedding embed text w =
      (Ok None,
       {| w_schema := w_schema w; w_db := w_db w; w_faults := w_faults w;
          w_now := w_now w; w_log := w_log w ++ [line] |}).
Proof.
  intros H. unfold get_embedding. rewrite H.
  eexists. unfold bind, print, ret. reflexivity.
Qed.

(** The plan's sketch, by contrast, passes the provider's error on and
    stores nothing. *)
Lemma ingest_journal_sketch_raises user text err w :
  embed text = Err err ->
  ingest_journal embed user text w = (Err err, w).
Proof.
  intros H. unfold ingest_journal, bind, generate_embedding, lift. rewrite H.
  reflexivity.
Qed.

(** C5. When the embedding provider raises for [text] and the database can
    be reached, [append] returns an entry of the owner with that text, not
    archived and with no embedding, and the entry is stored. Afterwards no
    result of [match_journal_entries] holds its id, while
    [get_recent_journal_entries] for the owner lists it first for every
    positive count, the stored entries being older than the new one. *)
Theorem append_soft_fail :
  forall (w : world) (owner : uuid) (text : string)
         (tags : option (list string)) (err : exn),
    embed text = Err err ->
    hd None (w_faults w) = None ->
    exists entry w',
      append embed owner text tags w = (Ok entry, w')
      /\ je_user_id entry = owner /\ je_content entry = text
      /\ je_is_archived entry = false /\ je_embedding entry = None
      /\ journal_entries (w_db w') = journal_entries (w_db w) ++ [entry]
      /\ (forall q threshold n u rows,
            match_journal_entries cosine_distance (journal_entries (w_db w'))
              q threshold n u = Ok rows ->
            ~ In (je_id entry) (map m_id rows))
      /\ (forall n,
            0 < n ->
            (forall r, In r (journal_entries (w_db w)) -> je_created_at r < w_now w) ->
            exists rows,
              get_recent_journal_entries (journal_entries (w_db w')) owner n
                = Ok (recent_select entry :: rows)).
Proof.
  intros w owner text tags err Hembed Hdb.
  destruct (get_embedding_soft_fail text err w Hembed) as (line & Hget).
  unfold append, bind. rewrite Hget. unfold execute. simpl w_faults.
  set (entry := {| je_id := fresh_uuid (map je_id (journal_entries (w_db w)));
                   je_user_id := owner; je_content := text; je_embedding := None;
                   je_mood_tags := tags; je_topics := None;
                   je_is_archived := false; je_created_at := w_now w |}).
  destruct (w_faults w) as [|[e0|] faults]; simpl in Hdb; try discriminate.
  all: simpl; exists entry; eexists; split; [reflexivity|].
  all: simpl; repeat split; try reflexivity.
  all: try (intros q threshold n u rows Hrows Hin;
    apply in_map_iff in Hin; destruct Hin as (m & Hid & Hm);
    destruct (match_rows_from cosine_distance _ _ _ _ _ _ _ Hrows Hm)
      as (e' & He' & -> & Hcond);
    apply match_condition_true in Hcond;
    destruct Hcond as (_ & _ & v & Hv & _);
    apply in_app_iff in He'; destruct He' as [He'|[<-|[]]];
    [ simpl in Hid; apply (fresh_uuid_not_in (map je_id (journal_entries (w_db w))));
      unfold entry in Hid; simpl in Hid; rewrite <- Hid; apply in_map; exact He'
    | discriminate ]).
  all: intros n Hn Hold; unfold get_recent_journal_entries, sql_limit;
    destruct (n <? 0) eqn:E; [apply Z.ltb_lt in E; lia|];
    destruct (order_by_newest_first entry
                (sql_where (recent_condition owner)
                   (journal_entries (w_db w) ++ [entry]))) as (rest & Hrest);
    [ apply sql_where_In; split;
      [ apply in_app_iff; right; left; reflexivity
      | apply recent_condition_true; auto ]
    | intros y Hy; apply sql_where_In in Hy; destruct Hy as [Hy _];
      apply in_app_iff in Hy; destruct Hy as [Hy|[<-|[]]];
      [ right; simpl; apply Hold; exact Hy | left; reflexivity ]
    | fold entry; rewrite Hrest;
      destruct (Z.to_nat n) as [|k] eqn:Ek; [lia|];
      simpl; eexists; reflexivity ].
Qed.

End ArchiveAndIngest.

(** ** Session Store *)

Lemma end_session_row now sid s :
  (if sql_true (Some (Nat.eqb (cs_id s) sid)) then set_ended_at (Some now) s else s)
  = if Nat.eqb (cs_id s) sid then set_ended_at (Some now) s else s.
Proof. destruct (Nat.eqb (cs_id s) sid); reflexivity. Qed.

(** C4, as the code has it. [end_session] never fails and leaves the session
    ended, but it stamps the end time anew on every call: two calls leave
    what the second call alone leaves, with the time of the second call
    stored; the state is that of a single call when both calls see the same
    [NOW()]. Sessions with another id are not touched. *)
Theorem end_session_last_call_wins :
  forall (now1 now2 : timestamptz) (sid : uuid) (t : list chat_session),
    end_session now2 sid (end_session now1 sid t) = end_session now2 sid t
    /\ end_session now1 sid (end_session now1 sid t) = end_session now1 sid t
    /\ (forall s, In s (end_session now2 sid (end_session now1 sid t)) ->
                  cs_id s = sid -> cs_ended_at s = Some now2)
    /\ (forall s, In s t -> cs_id s <> sid ->
                  In s (end_session now2 sid (end_session now1 sid t))).
Proof.
  intros now1 now2 sid t.
  assert (Htwice : forall a b,
            end_session b sid (end_session a sid t) = end_session b sid t).
  { intros a b. unfold end_session, sql_update. rewrite map_map.
    apply map_ext. intros s. rewrite !end_session_row.
    destruct (Nat.eqb (cs_id s) sid) eqn:E; simpl; rewrite E; reflexivity. }
  split; [apply Htwice|]. split; [apply Htwice|]. split.
  - intros s Hs Hid. rewrite Htwice in Hs.
    unfold end_session in Hs. apply sql_update_In in Hs.
    destruct Hs as (r & _ & ->). rewrite end_session_row in *.
    destruct (Nat.eqb (cs_id r) sid) eqn:E; [reflexivity|].
    apply Nat.eqb_neq in E. contradiction.
  - intros s Hs Hid. rewrite Htwice.
    unfold end_session. apply sql_update_In. exists s. split; [exact Hs|].
    rewrite end_session_row. apply Nat.eqb_neq in Hid. rewrite Hid. reflexivity.
Qed.

(** C4, as stated, fails: a session ended at time 20 and ended again at
    time 30 holds 30 as its end time, not what the single call left. *)
Lemma end_session_twice_moves_end_time :
  end_session 30 1%nat (end_session 20 1%nat [sample_session 1%nat 7%nat 10 None])
    <> end_session 20 1%nat [sample_session 1%nat 7%nat 10 None]
  /\ map cs_ended_at
       (end_session 30 1%nat (end_session 20 1%nat [sample_session 1%nat 7%nat 10 None]))
     = [Some 30].
Proof.
  split; [|reflexivity].
  intros H. apply (f_equal (map cs_ended_at)) in H. simpl in H. discriminate.
Qed.

Lemma started_desc_total a b : started_desc a b = true \/ started_desc b a = true.
Proof. unfold started_desc. rewrite !Z.leb_le. lia. Qed.

Lemma started_desc_trans a b c :
  started_desc a b = true -> started_desc b c = true -> started_desc a c = true.
Proof. unfold started_desc. rewrite !Z.leb_le. lia. Qed.

Lemma select_open_session_nil u t :
  select_open_session u t = [] -> open_sessions u t = [].
Proof.
  unfold select_open_session, open_sessions. intros H.
  pose proof (order_by_length started_desc (sql_where (open_condition u) t)) as Hlen.
  destruct (order_by started_desc (sql_where (open_condition u) t)); [|discriminate].
  destruct (sql_where (open_condition u) t); [reflexivity|discriminate].
Qed.

Lemma select_open_session_cons u t s rest :
  select_open_session u t = s :: rest ->
  In s (open_sessions u t) /\
  forall s', In s' (open_sessions u t) -> cs_started_at s' <= cs_started_at s.
Proof.
  unfold select_open_session, open_sessions. intros H.
  pose proof (order_by_sorted started_desc started_desc_total started_desc_trans
                (sql_where (open_condition u) t)) as Hs.
  pose proof (fun y => order_by_In started_desc y (sql_where (open_condition u) t)) as Hin.
  destruct (order_by started_desc (sql_where (open_condition u) t)) as [|h l];
    [discriminate|].
  simpl in H. injection H as -> _. split.
  - apply Hin. left. reflexivity.
  - intros s' Hs'. apply Hin in Hs'. destruct Hs' as [->|Hs']; [lia|].
    inversion Hs as [|? ? _ Hall]; subst. rewrite Forall_forall in Hall.
    specialize (Hall s' Hs'). unfold started_desc in Hall.
    apply Z.leb_le in Hall. exact Hall.
Qed.

Lemma open_condition_true u s :
  open_condition u s = Some true <-> cs_user_id s = u /\ cs_ended_at s = None.
Proof.
  unfold open_condition. rewrite sql_and_true. unfold sql_is_null. split.
  - intros [Hu He]. injection Hu as Hu. apply Nat.eqb_eq in Hu.
    destruct (cs_ended_at s); [discriminate|]. auto.
  - intros [-> ->]. rewrite Nat.eqb_refl. auto.
Qed.

Lemma open_sessions_insert now owner u t :
  open_sessions u (fst (insert_chat_session now owner t))
  = open_sessions u t
    ++ (if Nat.eqb owner u then [snd (insert_chat_session now owner t)] else []).
Proof.
  unfold open_sessions, sql_where, insert_chat_session. simpl.
  rewrite filter_app. simpl. unfold open_condition. simpl.
  destruct (Nat.eqb owner u); reflexivity.
Qed.

(** An atomic run of the helper: it fails without writing, or returns an
    open session it found and writes nothing, or found none and inserts
    one. *)
Lemma get_or_create_chat_session_run w owner :
  let t := chat_sessions (w_db w) in
  let out := get_or_create_chat_session owner w in
  (w_db (snd out) = w_db w /\
   (forall s, fst out = Ok s -> exists rest, select_open_session owner t = s :: rest) /\
   (w_faults w = [] -> exists s, fst out = Ok s))
  \/
  (select_open_session owner t = [] /\
   exists now, fst out = Ok (snd (insert_chat_session now owner t)) /\
               chat_sessions (w_db (snd out)) = fst (insert_chat_session now owner t)).
Proof.
  unfold get_or_create_chat_session, bind, execute, select_open_session_stmt,
    insert_chat_session_stmt, ret.
  destruct (w_faults w) as [|[e|] faults] eqn:Hf; simpl.
  - destruct (select_open_session owner (chat_sessions (w_db w))) as [|s rest] eqn:Hsel;
      simpl.
    + right. split; [reflexivity|]. exists (w_now w + 1). split; reflexivity.
    + left. repeat split; eauto. intros s' H. injection H as <-. eauto.
  - left. repeat split; try discriminate.
  - destruct (select_open_session owner (chat_sessions (w_db w))) as [|s rest] eqn:Hsel;
      simpl.
    + destruct faults as [|[e|] faults']; simpl.
      * right. split; [reflexivity|]. exists (w_now w + 1). split; reflexivity.
      * left. repeat split; try discriminate.
      * right. split; [reflexivity|]. exists (w_now w + 1). split; reflexivity.
    + left. repeat split; try discriminate. intros s' H. injection H as <-. eauto.
Qed.

(** C3, as the code has it. A call of [get_or_create_chat_session] that runs
    with no other statement in between keeps "at most one open session"
    for every owner, even when it fails; when the database is reachable it
    returns an open session of the owner: the most recently started one,
    with nothing written, when there is one, and a newly inserted one
    otherwise. *)
Theorem get_or_create_chat_session_atomic :
  forall (w : world) (owner : uuid),
    let out := get_or_create_chat_session owner w in
    (forall u,
        (List.length (open_sessions u (chat_sessions (w_db w))) <= 1)%nat ->
        (List.length (open_sessions u (chat_sessions (w_db (snd out)))) <= 1)%nat)
    /\ (w_faults w = [] ->
        exists s,
          fst out = Ok s /\ cs_user_id s = owner /\ cs_ended_at s = None /\
          match open_sessions owner (chat_sessions (w_db w)) with
          | [] => chat_sessions (w_db (snd out)) = chat_sessions (w_db w) ++ [s]
          | _ :: _ =>
              w_db (snd out) = w_db w /\
              In s (chat_sessions (w_db w)) /\
              forall s', In s' (open_sessions owner (chat_sessions (w_db w))) ->
                         cs_started_at s' <= cs_started_at s
          end).
Proof.
  intros w owner. cbv zeta.
  pose proof (get_or_create_chat_session_run w owner) as Hrun. cbv zeta in Hrun.
  destruct Hrun as [(Hdb & Hfound & Hok) | (Hnone & now & Hres & Hdb)].
  - split.
    + intros u Hu. rewrite Hdb. exact Hu.
    + intros Hf. destruct (Hok Hf) as (s & Hs). exists s.
      destruct (Hfound s Hs) as (rest & Hsel).
      apply select_open_session_cons in Hsel. destruct Hsel as [Hin Hmax].
      pose proof Hin as Hin'. unfold open_sessions in Hin'.
      apply sql_where_In in Hin'. destruct Hin' as [Hin' Hc].
      apply open_condition_true in Hc. destruct Hc as [Hu He].
      repeat split; try assumption.
      destruct (open_sessions owner (chat_sessions (w_db w))); [destruct Hin|].
      auto.
  - apply select_open_session_nil in Hnone. split.
    + intros u Hu. rewrite Hdb, open_sessions_insert.
      destruct (Nat.eqb owner u) eqn:E.
      * apply Nat.eqb_eq in E. subst u. rewrite Hnone. simpl. lia.
      * rewrite app_nil_r. exact Hu.
    + intros _. exists (snd (insert_chat_session now owner (chat_sessions (w_db w)))).
      rewrite Hnone. repeat split; try assumption.
Qed.

(** C3, as stated, fails. Two requests of owner 7 on an empty table, the
    second running its SELECT before the first has run its INSERT: both
    insert, two open sessions of that owner are stored, and the two calls
    return different sessions. *)
Lemma two_open_sessions_reachable :
  exists t now s1 s2,
    reachable ([], 1000, [Calling 7%nat; Calling 7%nat])
              (t, now, [Returned s1; Returned s2])
    /\ List.length (open_sessions 7%nat t) = 2%nat
    /\ cs_id s1 <> cs_id s2.
Proof.
  exists [sample_session 1%nat 7%nat 1002 None; sample_session 2%nat 7%nat 1003 None],
         1004,
         (sample_session 1%nat 7%nat 1002 None),
         (sample_session 2%nat 7%nat 1003 None).
  split; [|split; [reflexivity | simpl; lia]].
  unfold reachable.
  eapply rt_trans; [apply rt_step;
    apply (step_one [] 1000 [] (Calling 7%nat) [Calling 7%nat]); reflexivity|].
  eapply rt_trans; [apply rt_step;
    apply (step_one [] 1001 [Selected 7%nat] (Calling 7%nat) []); reflexivity|].
  eapply rt_trans; [apply rt_step;
    apply (step_one [] 1002 [] (Selected 7%nat) [Selected 7%nat]); reflexivity|].
  apply rt_step.
  apply (step_one [sample_session 1%nat 7%nat 1002 None] 1003
           [Returned (sample_session 1%nat 7%nat 1002 None)] (Selected 7%nat) []).
  reflexivity.
Qed.

(** The two statements of the helper are the two steps of a request. *)
Lemma get_or_create_chat_session_steps w owner :
  w_faults w = [] ->
  let t := chat_sessions (w_db w) in
  let out := get_or_create_chat_session owner w in
  match request_step (w_now w) (Calling owner) t with
  | Some (Returned s, t') => fst out = Ok s /\ chat_sessions (w_db (snd out)) = t'
  | Some (Selected u, t') =>
      match request_step (w_now w + 1) (Selected u) t' with
      | Some (Returned s, t'') => fst out = Ok s /\ chat_sessions (w_db (snd out)) = t''
      | _ => False
      end
  | _ => False
  end.
Proof.
  intros Hf. unfold get_or_create_chat_session, bind, execute,
    select_open_session_stmt, insert_chat_session_stmt, ret.
  rewrite Hf. simpl.
  destruct (select_open_session owner (chat_sessions (w_db w))); simpl; auto.
Qed.

(** ** Error handling of the Python helpers *)

(** A round trip either raises what the network had in store, or runs the
    statement. *)
Lemma execute_run {A} (stmt : statement A) w :
  let after db :=
    {| w_schema := w_schema w; w_db := db; w_faults := tl (w_faults w);
       w_now := w_now w + 1; w_log := w_log w |} in
  (exists e, execute stmt w = (Err e, after (w_db w)))
  \/ (exists a db', hd None (w_faults w) = None /\
                    stmt (w_schema w) (w_now w) (w_db w) = Ok (a, db') /\
                    execute stmt w = (Ok a, after db')).
Proof.
  unfold execute.
  destruct (w_faults w) as [|[e|] fs]; simpl.
  2: left; eauto.
  all: destruct (stmt (w_schema w) (w_now w) (w_db w)) as [[a db']|e];
    [right; eauto | left; eauto].
Qed.

Lemma execute_fault {A} (stmt : statement A) w e rest :
  w_faults w = Some e :: rest ->
  execute stmt w =
    (Err e, {| w_schema := w_schema w; w_db := w_db w; w_faults := rest;
               w_now := w_now w + 1; w_log := w_log w |}).
Proof. intros H. unfold execute. rewrite H. reflexivity. Qed.

(** C9, as the code has it. [load_state], [save_state] and [clear_state]
    never raise: every exception of the round trip, the database being out
    of reach included, is caught and printed. The caller of [load_state]
    then gets "absent", the callers of [save_state] and [clear_state] a
    normal return, and the tables are as before. A helper without handler,
    [get_or_create_chat_session], passes the exception on. *)
Theorem conversation_store_absorbs_errors :
  forall (w : world) (user : uuid) (key : string) (state : json),
    (exists v, fst (ConversationStore.load_state user key w) = Ok v)
    /\ fst (ConversationStore.save_state user state key w) = Ok tt
    /\ fst (ConversationStore.clear_state user key w) = Ok tt
    /\ (forall e rest,
          w_faults w = Some e :: rest ->
          fst (ConversationStore.load_state user key w) = Ok None
          /\ w_db (snd (ConversationStore.load_state user key w)) = w_db w
          /\ w_log (snd (ConversationStore.load_state user key w))
             = w_log w ++ [("Error loading conversation state: " ++ str e)%string]
          /\ w_db (snd (ConversationStore.save_state user state key w)) = w_db w
          /\ w_log (snd (ConversationStore.save_state user state key w))
             = w_log w ++ [("Error saving conversation state: " ++ str e)%string]
          /\ w_db (snd (ConversationStore.clear_state user key w)) = w_db w
          /\ fst (get_or_create_chat_session user w) = Err e).
Proof.
  intros w user key state. repeat split.
  - unfold ConversationStore.load_state, try_except, bind.
    destruct (execute_run (select_state user key) w) as [(e & ->) | (a & db' & _ & _ & ->)].
    + simpl. eauto.
    + destruct a; simpl; eauto.
  - unfold ConversationStore.save_state, try_except.
    destruct (execute_run (upsert_conversation_history [Ch_user_id; Ch_session_key]
                user key state (dict_get state "current_agent")) w)
      as [(e & ->) | ([] & db' & _ & _ & ->)]; reflexivity.
  - unfold ConversationStore.clear_state, try_except.
    destruct (execute_run (delete_state user key) w)
      as [(e & ->) | ([] & db' & _ & _ & ->)]; reflexivity.
  - unfold ConversationStore.load_state, try_except, bind.
    rewrite (execute_fault _ w e rest H). reflexivity.
  - unfold ConversationStore.load_state, try_except, bind.
    rewrite (execute_fault _ w e rest H). reflexivity.
  - unfold ConversationStore.load_state, try_except, bind.
    rewrite (execute_fault _ w e rest H). reflexivity.
  - unfold ConversationStore.save_state, try_except.
    rewrite (execute_fault _ w e rest H). reflexivity.
  - unfold ConversationStore.save_state, try_except.
    rewrite (execute_fault _ w e rest H). reflexivity.
  - unfold ConversationStore.clear_state, try_except.
    rewrite (execute_fault _ w e rest H). reflexivity.
  - unfold get_or_create_chat_session, bind.
    rewrite (execute_fault _ w e rest H). reflexivity.
Qed.

(** C9, as stated, fails. With the database out of reach, [load_state]
    answers "absent", exactly as it does for a reachable database that holds
    no state, and [save_state] and [clear_state] return normally. *)
Lemma load_state_hides_outage :
  fst (ConversationStore.load_state 7%nat ConversationStore.default
         (world_of schema_sql empty_database [Some outage]))
    = Ok None
  /\ fst (ConversationStore.load_state 7%nat ConversationStore.default
            (world_of schema_sql empty_database []))
    = Ok None
  /\ fst (ConversationStore.save_state 7%nat sample_state ConversationStore.default
            (world_of schema_sql empty_database [Some outage]))
    = Ok tt
  /\ fst (ConversationStore.clear_state 7%nat ConversationStore.default
            (world_of schema_sql empty_database [Some outage]))
    = Ok tt.
Proof. repeat split. Qed.

Section FollowUp.

Variable embed : string -> result exn vector.
Variable synthesize_entry : string -> string -> result exn string.

Lemma get_embedding_run text w :
  exists v log,
    get_embedding embed text w =
      (Ok v, {| w_schema := w_schema w; w_db := w_db w; w_faults := w_faults w;
                w_now := w_now w; w_log := log |}).
Proof.
  unfold get_embedding. destruct (embed text) as [v|e].
  - exists (Some v), (w_log w). unfold ret. destruct w; reflexivity.
  - eexists None, _. unfold bind, print, ret. reflexivity.
Qed.

(** C8, as the code has it. [process_follow_up] stores the follow-up, then
    the synthesized entry, then the link, and a successful call leaves the
    follow-up linked to the entry it returns. Every failure is raised as
    [HTTPException(500, str(e))]: when the link fails after the entry was
    created (fourth round trip), the caller gets the very exception it gets
    when the entry cannot be created (third round trip), while the new
    entry and the unlinked follow-up stay stored. *)
Theorem process_follow_up_outcomes :
  forall (w : world) (request : JournalFollowUpRequest) (original : journal_entry)
         (content : string) (err : exn) (rest : list (option exn)),
    sql_where (entry_condition (entry_id request) (user_id request))
              (journal_entries (w_db w)) = [original] ->
    synthesize_entry (je_content original) (answer request) = Ok content ->
    let run faults :=
      process_follow_up embed synthesize_entry request (with_faults faults w) in
    let link_fails := run (None :: None :: None :: Some err :: rest) in
    let entry_fails := run (None :: None :: Some err :: rest) in
    let succeeds := run [] in
    fst link_fails = Err (HTTPException 500 (str err))
    /\ fst entry_fails = Err (HTTPException 500 (str err))
    /\ (exists entry,
          journal_entries (w_db (snd link_fails)) = journal_entries (w_db w) ++ [entry]
          /\ je_content entry = content /\ je_user_id entry = user_id request)
    /\ (exists f,
          journal_followups (w_db (snd link_fails)) = journal_followups (w_db w) ++ [f]
          /\ jf_original_entry_id f = entry_id request
          /\ jf_synthesized_entry_id f = None)
    /\ journal_entries (w_db (snd entry_fails)) = journal_entries (w_db w)
    /\ (exists response f,
          fst succeeds = Ok response
          /\ journal_entries (w_db (snd succeeds))
             = journal_entries (w_db w) ++ [synthesized_entry response]
          /\ je_content (synthesized_entry response) = content
          /\ In f (journal_followups (w_db (snd succeeds)))
          /\ jf_id f = followup_id response
          /\ jf_original_entry_id f = entry_id request
          /\ jf_synthesized_entry_id f = Some (je_id (synthesized_entry response)))
    /\ (forall e, fst (process_follow_up embed synthesize_entry request w) = Err e ->
                  exists detail, e = HTTPException 500 detail).
Proof.
  intros w request original content err rest Hsel Hsyn. cbv zeta.
  assert (Hlast : forall e,
    fst (process_follow_up embed synthesize_entry request w) = Err e ->
    exists detail, e = HTTPException 500 detail).
  { unfold process_follow_up, try_except. intros e.
    match goal with
    | |- fst (match ?m with _ => _ end) = _ -> _ => destruct m as [[r|e0] w']
    end; simpl; [discriminate|].
    intros H. injection H as <-. eauto. }
  repeat (split; [|try exact Hlast]); try exact Hlast.
  all: unfold process_follow_up, try_except, bind, execute, lift, with_faults,
    select_entry_single, insert_followup_stmt, insert_journal_entry_stmt,
    insert_journal_entry, link_followup_stmt, ret, raise.
  all: repeat (simpl;
    first [ rewrite Hsel | rewrite Hsyn
          | match goal with
            | |- context [get_embedding _ ?c ?w'] =>
                let v := fresh "v" in let lg := fresh "lg" in let H := fresh "H" in
                destruct (get_embedding_run c w') as (v & lg & H);
                rewrite H; clear H
            end ]).
  all: simpl.
  - reflexivity.
  - reflexivity.
  - eexists. split; [reflexivity | split; reflexivity].
  - eexists. split; [reflexivity | split; reflexivity].
  - reflexivity.
  - eexists. eexists. split; [reflexivity|]. simpl.
    split; [reflexivity|]. split; [reflexivity|].
    split.
    + unfold sql_update. rewrite map_app. apply in_app_iff. right. simpl.
      rewrite Nat.eqb_refl. simpl. left. reflexivity.
    + repeat split.
Qed.

End FollowUp.

(** ** The [updated_at] trigger *)

Section Trigger.

Context {row : Type} `{Timestamped row}.

Lemma run_write_logged_erase (w : table_write row) (t : list (row * timestamptz)) :
  map fst (run_write_logged w t) = run_write w (map fst t).
Proof.
  destruct w as [now new_row | now c set_ | c]; simpl.
  - rewrite map_app. reflexivity.
  - unfold update_with_trigger, sql_update. rewrite !map_map.
    apply map_ext. intros [r g]. simpl. destruct (sql_true (c r)); reflexivity.
  - unfold sql_delete. induction t as [|[r g] t IH]; simpl; [reflexivity|].
    destruct (sql_true (c r)); simpl; rewrite IH; reflexivity.
Qed.

Lemma run_write_logged_stamped (w : table_write row) (t : list (row * timestamptz)) :
  Forall (fun p => updated_at (fst p) = snd p) t ->
  Forall (fun p => updated_at (fst p) = snd p) (run_write_logged w t).
Proof.
  intros Ht. destruct w as [now new_row | now c set_ | c]; simpl.
  - apply Forall_app. split; [exact Ht|].
    constructor; [|constructor]. simpl. apply updated_at_set.
  - rewrite Forall_forall in *. intros p Hp. apply in_map_iff in Hp.
    destruct Hp as (p0 & <- & Hp0). destruct (sql_true (c (fst p0))).
    + simpl. unfold update_updated_at_column. apply updated_at_set.
    + auto.
  - rewrite Forall_forall in *. intros p Hp. apply filter_In in Hp. apply Ht, Hp.
Qed.

Lemma run_writes_logged_spec (ws : list (table_write row)) (t : list (row * timestamptz)) :
  Forall (fun p => updated_at (fst p) = snd p) t ->
  map fst (run_writes_logged ws t) = run_writes ws (map fst t)
  /\ Forall (fun p => updated_at (fst p) = snd p) (run_writes_logged ws t).
Proof.
  unfold run_writes_logged, run_writes. revert t.
  induction ws as [|w ws IH]; simpl; intros t Ht.
  - auto.
  - rewrite <- run_write_logged_erase. apply IH, run_write_logged_stamped, Ht.
Qed.

(** C10. On a table that carries the trigger ([conversation_history],
    [user_profiles]), an UPDATE run at time [now] leaves every row it
    matches with [updated_at = now], whatever its SET list assigns, and
    every other row as it was. Hence, in a table built by any sequence of
    inserts (with [updated_at] defaulted), updates and deletes, every
    row's [updated_at] is the time of the last write that touched it. *)
Theorem updated_at_is_time_of_last_write :
  (forall (now : timestamptz) (c : row -> sql_bool) (set_ : row -> row) (t : list row),
      Forall2 (fun old new =>
                 if sql_true (c old) then updated_at new = now else new = old)
              t (update_with_trigger now c set_ t))
  /\ (forall ws : list (table_write row),
        map fst (run_writes_logged ws []) = run_writes ws []
        /\ Forall (fun p => updated_at (fst p) = snd p) (run_writes_logged ws [])).
Proof.
  split.
  - intros now c set_ t. unfold update_with_trigger, sql_update.
    induction t as [|r t IH]; simpl; constructor; [|exact IH].
    destruct (sql_true (c r)); [|reflexivity].
    unfold update_updated_at_column. apply updated_at_set.
  - intros ws. apply (run_writes_logged_spec ws []). constructor.
Qed.

End Trigger.

(** ** Conversation-State Store *)

(** On the schema of schema.sql the upsert of [save_state] is refused:
    [save_state] prints the error and the tables stay as they were. *)
Lemma save_state_refused_on_schema_sql w user state key :
  w_schema w = schema_sql ->
  fst (ConversationStore.save_state user state key w) = Ok tt
  /\ w_db (snd (ConversationStore.save_state user state key w)) = w_db w
  /\ exists line,
       w_log (snd (ConversationStore.save_state user state key w)) = w_log w ++ [line].
Proof.
  intros Hs. unfold ConversationStore.save_state, try_except, execute,
    upsert_conversation_history, print.
  rewrite Hs. simpl.
  destruct (w_faults w) as [|[e|] fs]; simpl; repeat split; eauto.
Qed.

(** C2 on the code: on an empty [conversation_history] as schema.sql creates
    it, with the database reachable, [save_state] followed by [load_state]
    returns "absent", not the saved state; the upsert was refused and the
    refusal printed. *)
Theorem save_then_load_on_schema_sql :
  let w := world_of schema_sql empty_database [] in
  let out :=
    (ConversationStore.save_state 7%nat sample_state ConversationStore.default ;;;
     ConversationStore.load_state 7%nat ConversationStore.default) w in
  fst out = Ok None
  /\ conversation_history (w_db (snd out)) = []
  /\ w_log (snd out)
     = [("Error saving conversation state: "
         ++ "there is no unique or exclusion constraint matching the ON CONFLICT specification")%string].
Proof. repeat split. Qed.

(** C7 on the code: after two saves for one key nothing is stored, so the
    latest write has not won: [load_state] returns "absent". *)
Theorem two_saves_on_schema_sql :
  let w := world_of schema_sql empty_database [] in
  let out :=
    (ConversationStore.save_state 7%nat sample_state ConversationStore.default ;;;
     ConversationStore.save_state 7%nat sample_state' ConversationStore.default ;;;
     ConversationStore.load_state 7%nat ConversationStore.default) w in
  fst out = Ok None
  /\ rows_for 7%nat ConversationStore.default (conversation_history (w_db (snd out))) = [].
Proof. repeat split. Qed.

(** *** With the unique index in place *)

Lemma ch_conflict_key new old :
  ch_conflict [Ch_user_id; Ch_session_key] new old = true <->
  state_condition (ch_user_id new) (ch_session_key new) old = Some true.
Proof.
  unfold ch_conflict, state_condition. cbn [forallb ch_agree].
  rewrite sql_and_true, andb_true_r, andb_true_iff.
  rewrite (Nat.eqb_sym (ch_user_id new)), (String.eqb_sym (ch_session_key new)).
  split.
  - intros [-> ->]. auto.
  - intros [H1 H2]. injection H1 as ->. injection H2 as ->. auto.
Qed.

Lemma state_condition_true user key r :
  state_condition user key r = Some true <->
  ch_user_id r = user /\ ch_session_key r = key.
Proof.
  unfold state_condition. rewrite sql_and_true. split.
  - intros [H1 H2]. injection H1 as H1. injection H2 as H2.
    apply Nat.eqb_eq in H1. apply String.eqb_eq in H2. auto.
  - intros [-> ->]. rewrite Nat.eqb_refl, String.eqb_refl. auto.
Qed.

Lemma upsert_with_unique_key now user key state db :
  upsert_conversation_history [Ch_user_id; Ch_session_key] user key state
    (dict_get state "current_agent") schema_with_unique_key now db
  = Ok (tt, with_conversation_history
              (upserted now user key state (conversation_history db)) db).
Proof.
  unfold upsert_conversation_history, upserted. simpl.
  destruct (existsb _ (conversation_history db)); reflexivity.
Qed.

Lemma upserted_rows now user key state t :
  (exists r, In r (rows_for user key (upserted now user key state t)))
  /\ (forall r, In r (rows_for user key (upserted now user key state t)) ->
                ch_agent_state r = Some state /\ ch_updated_at r = now).
Proof.
  unfold upserted, rows_for.
  set (new := {| ch_id := fresh_uuid (map ch_id t); ch_user_id := user;
                 ch_session_key := key; ch_agent_state := Some state;
                 ch_last_agent := dict_get state "current_agent";
                 ch_created_at := now; ch_updated_at := now |}).
  destruct (existsb (ch_conflict [Ch_user_id; Ch_session_key] new) t) eqn:E.
  - split.
    + apply existsb_exists in E. destruct E as (old & Hold & Hc).
      exists (update_updated_at_column now (ch_set_excluded new old)).
      apply sql_where_In. split.
      * unfold update_with_trigger. apply sql_update_In. exists old.
        split; [exact Hold|]. unfold sql_true. rewrite Hc. reflexivity.
      * apply state_condition_true. auto.
    + intros r Hr. apply sql_where_In in Hr. destruct Hr as [Hr Hc].
      unfold update_with_trigger in Hr. apply sql_update_In in Hr.
      destruct Hr as (old & Hold & ->). unfold sql_true in Hc |- *.
      destruct (ch_conflict [Ch_user_id; Ch_session_key] new old) eqn:E'.
      * simpl. auto.
      * apply (ch_conflict_key new old) in Hc. congruence.
  - split.
    + exists new. apply sql_where_In. split.
      * apply in_app_iff. right. left. reflexivity.
      * apply state_condition_true. auto.
    + intros r Hr. apply sql_where_In in Hr. destruct Hr as [Hr Hc].
      apply in_app_iff in Hr. destruct Hr as [Hr|[<-|[]]]; [|auto].
      exfalso. apply (ch_conflict_key new r) in Hc.
      assert (existsb (ch_conflict [Ch_user_id; Ch_session_key] new) t = true)
        by (apply existsb_exists; eauto).
      congruence.
Qed.

(** The upsert keeps "at most one row per (user, session key)". *)
Lemma upserted_one_row_per_key now user key state t :
  (forall u k, (List.length (rows_for u k t) <= 1)%nat) ->
  forall u k, (List.length (rows_for u k (upserted now user key state t)) <= 1)%nat.
Proof.
  intros Ht u k. unfold upserted, rows_for.
  set (new := {| ch_id := fresh_uuid (map ch_id t); ch_user_id := user;
                 ch_session_key := key; ch_agent_state := Some state;
                 ch_last_agent := dict_get state "current_agent";
                 ch_created_at := now; ch_updated_at := now |}).
  destruct (existsb (ch_conflict [Ch_user_id; Ch_session_key] new) t) eqn:E.
  - unfold update_with_trigger, sql_update, sql_where.
    rewrite filter_map_same.
    + rewrite length_map. apply (Ht u k).
    + intros old. f_equal. unfold sql_true at 1.
      destruct (ch_conflict [Ch_user_id; Ch_session_key] new old) eqn:Ec;
        [|reflexivity].
      apply (ch_conflict_key new old) in Ec. apply state_condition_true in Ec.
      destruct Ec as [Hu Hk]. unfold state_condition. simpl. rewrite Hu, Hk.
      reflexivity.
  - unfold sql_where. rewrite filter_app, length_app. simpl.
    destruct (sql_true (state_condition u k new)) eqn:Ec; simpl.
    + assert (Hnone : filter (fun r => sql_true (state_condition u k r)) t = []).
      { destruct (filter (fun r => sql_true (state_condition u k r)) t) as [|r l] eqn:Ef;
          [reflexivity|].
        assert (Hr : In r (sql_where (state_condition u k) t))
          by (unfold sql_where; rewrite Ef; left; reflexivity).
        apply sql_where_In in Hr. destruct Hr as [Hr Hc].
        assert (Hnew : state_condition u k new = Some true)
          by (unfold sql_true in Ec; destruct (state_condition u k new) as [[|]|];
              congruence).
        apply state_condition_true in Hnew. simpl in Hnew. destruct Hnew as [<- <-].
        apply (ch_conflict_key new r) in Hc.
        assert (existsb (ch_conflict [Ch_user_id; Ch_session_key] new) t = true)
          by (apply existsb_exists; eauto).
        congruence. }
      rewrite Hnone. simpl. lia.
    + specialize (Ht u k). unfold rows_for, sql_where in Ht. lia.
Qed.

Lemma updated_desc_total a b : updated_desc a b = true \/ updated_desc b a = true.
Proof. unfold updated_desc. rewrite !Z.leb_le. lia. Qed.


(** The row [load_state] reads is the most recently updated one of the
    key. *)
Lemma select_state_most_recent user key sch now db r rest :
  select_state user key sch now db = Ok (r :: rest, db) ->
  In r (rows_for user key (conversation_history db))
  /\ forall r', In r' (rows_for user key (conversation_history db)) ->
                 ch_updated_at r' <= ch_updated_at r.
Proof.
  unfold select_state, rows_for. intros H. injection H as H.
  pose proof (order_by_sorted updated_desc updated_desc_total
                (fun a b c => ltac:(unfold updated_desc; rewrite !Z.leb_le; lia))
                (sql_where (state_condition user key) (conversation_history db))) as Hs.
  pose proof (fun y => order_by_In updated_desc y
                (sql_where (state_condition user key) (conversation_history db))) as Hin.
  destruct (order_by updated_desc _) as [|h l]; [discriminate|].
  simpl in H. injection H as -> _. split.
  - apply Hin. left. reflexivity.
  - intros r' Hr'. apply Hin in Hr'. destruct Hr' as [->|Hr']; [lia|].
    inversion Hs as [|? ? _ Hall]; subst. rewrite Forall_forall in Hall.
    specialize (Hall r' Hr'). unfold updated_desc in Hall.
    apply Z.leb_le in Hall. exact Hall.
Qed.

(** The README's save, which conflicts on the primary key only, inserts a
    row on every call: two saves leave two rows for the key. *)
Lemma readme_save_keeps_history :
  let w := world_of schema_sql empty_database [] in
  let out :=
    (save_conversation_state 7%nat ConversationStore.default sample_state ;;;
     save_conversation_state 7%nat ConversationStore.default sample_state') w in
  fst out = Ok tt
  /\ map ch_agent_state
       (rows_for 7%nat ConversationStore.default (conversation_history (w_db (snd out))))
     = [Some sample_state; Some sample_state'].
Proof. repeat split. Qed.

(** ** Similarity search of the first schema *)

Section FirstSchemaSearch.

Variable cosine_distance : vector -> vector -> Q.

Lemma first_schema_match_condition_true q threshold owner e :
  FirstSchema.match_condition cosine_distance q threshold owner e = Some true ->
  FirstSchema.je_user_id e = owner /\
  exists v, FirstSchema.je_embedding e = Some v /\
            FirstSchema.distance_to cosine_distance q e = Some (cosine_distance v q) /\
            (threshold < 1 - cosine_distance v q)%Q.
Proof.
  unfold FirstSchema.match_condition. rewrite sql_and_true.
  intros [Hu Hgt]. injection Hu as Hu. apply Nat.eqb_eq in Hu.
  unfold FirstSchema.distance_to in *.
  destruct (FirstSchema.je_embedding e) as [v|]; [|discriminate].
  simpl in Hgt. injection Hgt as Hgt. apply Qlt_bool_iff in Hgt.
  split; [exact Hu|]. exists v. auto.
Qed.

(** X22. The function of the first schema keeps the promises of C1 that
    make sense there: a row without embedding has a NULL similarity, and a
    NULL condition keeps no row. *)
Lemma first_schema_match_journal_entries_spec :
  forall (t : list FirstSchema.journal_entry) (q : vector) (threshold : Q) (n : Z)
         (owner : uuid),
    match FirstSchema.match_journal_entries cosine_distance t q threshold n owner with
    | Ok rows =>
        (forall m, In m rows ->
           exists e v,
             In e t /\ FirstSchema.m_id m = FirstSchema.je_id e /\
             FirstSchema.je_user_id e = owner /\
             FirstSchema.je_embedding e = Some v /\
             FirstSchema.m_similarity m = Some (1 - cosine_distance v q)%Q /\
             (threshold < 1 - cosine_distance v q)%Q)
        /\ StronglySorted
             (fun a b => exists x y,
                  FirstSchema.m_similarity a = Some x /\
                  FirstSchema.m_similarity b = Some y /\ (y <= x)%Q)
             rows
        /\ Z.of_nat (List.length rows) <= n
    | Err _ => n < 0
    end.
Proof.
  intros t q threshold n owner. unfold FirstSchema.match_journal_entries.
  pose proof (sql_limit_ok n
    (order_by (fun a b => float_asc (FirstSchema.distance_to cosine_distance q a)
                                    (FirstSchema.distance_to cosine_distance q b))
       (sql_where (FirstSchema.match_condition cosine_distance q threshold owner) t)))
    as Hl.
  destruct (sql_limit n _) as [rows|err]; [|exact Hl].
  destruct Hl as [Hn ->]. split; [|split].
  - intros m Hm. apply in_map_iff in Hm. destruct Hm as (e & <- & He).
    apply In_firstn, order_by_In, sql_where_In in He. destruct He as [He Hc].
    apply first_schema_match_condition_true in Hc.
    destruct Hc as (Hu & v & Hv & Hd & Hgt).
    exists e, v. simpl. rewrite Hd. simpl. repeat split; assumption.
  - apply StronglySorted_map_In
      with (R := fun a b => float_asc (FirstSchema.distance_to cosine_distance q a)
                                      (FirstSchema.distance_to cosine_distance q b) = true).
    + intros a b Ha Hb Hle.
      apply In_firstn, order_by_In, sql_where_In in Ha.
      apply In_firstn, order_by_In, sql_where_In in Hb.
      destruct Ha as [_ Ha]. destruct Hb as [_ Hb].
      apply first_schema_match_condition_true in Ha.
      destruct Ha as (_ & va & _ & Hda & _).
      apply first_schema_match_condition_true in Hb.
      destruct Hb as (_ & vb & _ & Hdb & _).
      simpl. rewrite Hda, Hdb in *. simpl in *.
      apply Qle_bool_iff in Hle.
      eexists; eexists; repeat split. lra.
    + apply StronglySorted_firstn.
      apply (order_by_sorted
               (fun a b => float_asc (FirstSchema.distance_to cosine_distance q a)
                                     (FirstSchema.distance_to cosine_distance q b))).
      * intros a b. apply float_asc_total.
      * intros a b c. apply float_asc_trans.
  - rewrite length_map.
    pose proof (firstn_le_length (Z.to_nat n)
      (order_by (fun a b => float_asc (FirstSchema.distance_to cosine_distance q a)
                                      (FirstSchema.distance_to cosine_distance q b))
         (sql_where (FirstSchema.match_condition cosine_distance q threshold owner) t)))
      as H.
    lia.
Qed.

End FirstSchemaSearch.

(* ================================================================== *)
(** * Part III. The theorems at work on the sample data *)
(* ================================================================== *)

(** The scenario "journal then search": owner 7 asks for entries close to
    the first coordinate; the archived entry 4, entry 3 without embedding,
    entry 5 of another owner and the orthogonal entry 2 stay out. *)
Example match_journal_entries_sample :
  exists rows,
    match_journal_entries unit_cosine_distance sample_journal [1; 0]%Q (1 # 2)%Q 5 7%nat
      = Ok rows
    /\ map m_id rows = [1%nat; 6%nat].
Proof. eexists. split; reflexivity. Qed.

Example get_recent_journal_entries_sample :
  exists rows,
    get_recent_journal_entries sample_journal 7%nat 2 = Ok rows
    /\ map rr_id rows = [6%nat; 3%nat].
Proof. eexists. split; reflexivity. Qed.

Lemma sample_journal_ids_distinct : NoDup (map je_id sample_journal).
Proof.
  simpl. repeat (constructor; [simpl; intuition discriminate|]). constructor.
Defined.

(** C6 at work: entry 1 is archived at time 1000 with age 500; then another
    entry is ingested and a later archive run happens. *)
Lemma archived_never_reappears_witness :
  NoDup (map je_id sample_journal)
  /\ In (sample_entry 1%nat 7%nat "I feel anxious about work" (Some [1; 0]%Q) false 100)
        sample_journal
  /\ archive_condition 1000 500 7%nat
       (sample_entry 1%nat 7%nat "I feel anxious about work" (Some [1; 0]%Q) false 100)
     = Some true
  /\ (forall u n rows,
        get_recent_journal_entries
          (journal_run [OpInsert 1100 7%nat "later" None None; OpArchive 2000 500 7%nat]
             (archive_older_than 1000 500 7%nat sample_journal)) u n = Ok rows ->
        ~ In 1%nat (map rr_id rows)).
Proof.
  split; [exact sample_journal_ids_distinct|].
  split; [left; reflexivity|].
  split; [reflexivity|].
  pose proof (archived_never_reappears unit_cosine_distance sample_journal 1000 500 7%nat
                (sample_entry 1%nat 7%nat "I feel anxious about work" (Some [1; 0]%Q) false 100)
                [OpInsert 1100 7%nat "later" None None; OpArchive 2000 500 7%nat]
                sample_journal_ids_distinct (or_introl eq_refl) eq_refl) as H.
  cbv zeta in H. destruct H as (_ & _ & H). exact H.
Defined.

(** C5 at work: the provider answers 429 and the database is reachable. *)
Lemma append_soft_fail_witness :
  sample_embed_down "I feel tired" = Err (ProviderError "429 quota exceeded")
  /\ hd None (w_faults (world_of schema_sql sample_database [])) = None
  /\ exists entry w',
       append sample_embed_down 7%nat "I feel tired" None
         (world_of schema_sql sample_database []) = (Ok entry, w')
       /\ je_embedding entry = None
       /\ journal_entries (w_db w') = sample_journal ++ [entry].
Proof.
  split; [reflexivity|]. split; [reflexivity|].
  destruct (append_soft_fail unit_cosine_distance sample_embed_down
              (world_of schema_sql sample_database []) 7%nat "I feel tired" None
              (ProviderError "429 quota exceeded") eq_refl eq_refl)
    as (entry & w' & Hrun & _ & _ & _ & Hemb & Hdb & _).
  exists entry, w'. split; [exact Hrun|]. split; [exact Hemb|]. exact Hdb.
Defined.

(** C8 at work: the follow-up on entry 1 of owner 7. *)
Lemma process_follow_up_outcomes_witness :
  sql_where (entry_condition (entry_id sample_request) (user_id sample_request))
            (journal_entries (w_db (world_of schema_sql sample_database [])))
    = [sample_entry 1%nat 7%nat "I feel anxious about work" (Some [1; 0]%Q) false 100]
  /\ sample_synthesize "I feel anxious about work" (answer sample_request)
     = Ok "I feel anxious about work / A deadline"%string
  /\ fst (process_follow_up sample_embed sample_synthesize sample_request
            (with_faults [None; None; None; Some outage]
               (world_of schema_sql sample_database [])))
     = Err (HTTPException 500 (str outage))
  /\ fst (process_follow_up sample_embed sample_synthesize sample_request
            (with_faults [None; None; Some outage]
               (world_of schema_sql sample_database [])))
     = Err (HTTPException 500 (str outage)).
Proof.
  split; [reflexivity|]. split; [reflexivity|].
  pose proof (process_follow_up_outcomes sample_embed sample_synthesize
                (world_of schema_sql sample_database []) sample_request
                (sample_entry 1%nat 7%nat "I feel anxious about work" (Some [1; 0]%Q) false 100)
                "I feel anxious about work / A deadline" outage []
                eq_refl eq_refl) as H.
  cbv zeta in H. destruct H as (Hlink & Hentry & _). split; assumption.
Defined.

(** C8, as stated, fails. The database drops out at the fourth round trip
    (the link) in one run and at the third (the entry) in another: the
    caller gets the same exception both times; after the first run the new
    entry is stored and the follow-up has no link; and the only way to try
    again, the same request, stores the entry a second time and leaves the
    first follow-up unlinked. *)
Lemma link_failure_looks_like_entry_failure :
  let run faults :=
    process_follow_up sample_embed sample_synthesize sample_request
      (world_of schema_sql sample_database faults) in
  let link_fails := run [None; None; None; Some outage] in
  let entry_fails := run [None; None; Some outage] in
  let again :=
    process_follow_up sample_embed sample_synthesize sample_request (snd link_fails) in
  fst link_fails = fst entry_fails
  /\ fst link_fails = Err (HTTPException 500 "connection refused")
  /\ map je_content (journal_entries (w_db (snd link_fails)))
     = (map je_content sample_journal
        ++ ["I feel anxious about work / A deadline"%string])
  /\ map jf_synthesized_entry_id (journal_followups (w_db (snd link_fails))) = [None]
  /\ (exists response, fst again = Ok response)
  /\ map je_content (journal_entries (w_db (snd again)))
     = (map je_content sample_journal
        ++ ["I feel anxious about work / A deadline"%string;
            "I feel anxious about work / A deadline"%string])
  /\ map jf_synthesized_entry_id (journal_followups (w_db (snd again)))
     = [None; Some 8%nat].
Proof.
  cbv zeta. repeat split. eexists. reflexivity.
Qed.

(** The trigger at work: an UPDATE of the profile at time 50 whose SET list
    assigns 7 to [updated_at] stores 50. *)
Example trigger_overrides_set_list :
  map up_updated_at
      (update_with_trigger 50 (fun p => Some (Nat.eqb (up_id p) 7%nat))
         (set_preferences 7) [sample_profile])
  = [50].
Proof. reflexivity. Qed.

(* ================================================================== *)
(** * Part IV. Further properties of the statements and helpers *)
(* ================================================================== *)

(** ** Prefixes of ordered results *)

Lemma StronglySorted_app_cross {A} (R : A -> A -> Prop) (l1 l2 : list A) :
  StronglySorted R (l1 ++ l2) ->
  forall a b, In a l1 -> In b l2 -> R a b.
Proof.
  induction l1 as [|x l1 IH]; simpl; intros Hs a b Ha Hb; [destruct Ha|].
  inversion Hs as [|? ? Hs' Hall]; subst.
  destruct Ha as [<-|Ha].
  - rewrite Forall_forall in Hall. apply Hall, in_app_iff. right. exact Hb.
  - apply IH; assumption.
Qed.

Lemma In_firstn_or_skipn {A} (x : A) n l :
  In x l -> In x (firstn n l) \/ In x (skipn n l).
Proof.
  intros H. rewrite <- (firstn_skipn n l) in H. apply in_app_iff in H. exact H.
Qed.

(** What [LIMIT] cuts off comes after what it keeps. *)
Lemma limit_keeps_the_first {A} (le : A -> A -> bool) (n : Z) (l rows : list A) :
  (forall a b, le a b = true \/ le b a = true) ->
  (forall a b c, le a b = true -> le b c = true -> le a c = true) ->
  sql_limit n (order_by le l) = Ok rows ->
  forall e, In e l -> In e rows \/ forall a, In a rows -> le a e = true.
Proof.
  intros Htot Htrans Hlim e He.
  pose proof (sql_limit_ok n (order_by le l)) as Hl. rewrite Hlim in Hl.
  destruct Hl as [_ ->].
  apply (order_by_In le) in He.
  destruct (In_firstn_or_skipn e (Z.to_nat n) _ He) as [H|H]; [left; exact H|].
  right. intros a Ha.
  pose proof (order_by_sorted le Htot Htrans l) as Hs.
  rewrite <- (firstn_skipn (Z.to_nat n) (order_by le l)) in Hs.
  exact (StronglySorted_app_cross _ _ _ Hs a e Ha H).
Qed.

(** ** Journal Store: recent entries *)

(** X1. [get_recent_journal_entries] is refused only for a negative count;
    otherwise its rows are entries of the owner that are not archived,
    newest first, and there are exactly min(count, number of such entries)
    of them. *)
Theorem get_recent_journal_entries_spec :
  forall (t : list journal_entry) (owner : uuid) (n : Z),
    match get_recent_journal_entries t owner n with
    | Ok rows =>
        (forall m, In m rows ->
           exists e, In e t /\ m = recent_select e /\
                     je_user_id e = owner /\ je_is_archived e = false)
        /\ StronglySorted (fun a b => rr_created_at b <= rr_created_at a) rows
        /\ List.length rows
           = Nat.min (Z.to_nat n) (List.length (sql_where (recent_condition owner) t))
    | Err _ => n < 0
    end.
Proof.
  intros t owner n. unfold get_recent_journal_entries.
  pose proof (sql_limit_ok n
    (order_by created_desc (sql_where (recent_condition owner) t))) as Hl.
  destruct (sql_limit n _) as [rows|err]; [|exact Hl].
  destruct Hl as [Hn ->]. split; [|split].
  - intros m Hm. apply in_map_iff in Hm. destruct Hm as (e & <- & He).
    apply In_firstn, order_by_In, sql_where_In in He. destruct He as [He Hc].
    apply recent_condition_true in Hc. exists e. tauto.
  - apply StronglySorted_map_In with (R := fun a b => created_desc a b = true).
    + intros a b _ _ H. unfold created_desc in H. apply Z.leb_le in H. exact H.
    + apply StronglySorted_firstn.
      apply (order_by_sorted created_desc created_desc_total created_desc_trans).
  - rewrite length_map, length_firstn, order_by_length. reflexivity.
Qed.

(** X2. The rows are the newest ones: an entry of the owner that is not
    archived and whose id is not among the rows is not newer than any row. *)
Theorem get_recent_journal_entries_newest :
  forall (t : list journal_entry) (owner : uuid) (n : Z) (rows : list recent_row)
         (e : journal_entry),
    get_recent_journal_entries t owner n = Ok rows ->
    In e t -> je_user_id e = owner -> je_is_archived e = false ->
    ~ In (je_id e) (map rr_id rows) ->
    forall m, In m rows -> je_created_at e <= rr_created_at m.
Proof.
  intros t owner n rows e Hrows He Hu Ha Hout m Hm.
  unfold get_recent_journal_entries in Hrows.
  destruct (sql_limit n _) as [kept|err] eqn:Hlim; [|discriminate].
  injection Hrows as <-.
  apply in_map_iff in Hm. destruct Hm as (a & <- & Hain).
  assert (Hq : In e (sql_where (recent_condition owner) t))
    by (apply sql_where_In; split; [exact He | apply recent_condition_true; auto]).
  destruct (limit_keeps_the_first created_desc n _ kept
              created_desc_total created_desc_trans Hlim e Hq) as [Hin|Hafter].
  - exfalso. apply Hout. apply in_map_iff. exists (recent_select e).
    split; [reflexivity|]. apply in_map. exact Hin.
  - specialize (Hafter a Hain). unfold created_desc in Hafter.
    apply Z.leb_le in Hafter. exact Hafter.
Qed.

(** ** Journal Store: the most similar entries *)

Section MostSimilar.

Variable cosine_distance : vector -> vector -> Q.


End MostSimilar.

(** ** Journal Store: archiving *)

Lemma archive_condition_true now age user e :
  archive_condition now age user e = Some true <->
  je_user_id e = user /\ je_created_at e < now - age /\ je_is_archived e = false.
Proof.
  unfold archive_condition. rewrite !sql_and_true. split.
  - intros [[Hu Hc] Ha]. injection Hu as Hu. injection Hc as Hc. injection Ha as Ha.
    apply Nat.eqb_eq in Hu. apply Z.ltb_lt in Hc. apply eqb_prop in Ha. auto.
  - intros (-> & Hc & ->). apply Z.ltb_lt in Hc. rewrite Hc, Nat.eqb_refl. auto.
Qed.


(** X5. After [archive_older_than now age user], the recent entries of that
    user are all from the cut-off [now - age] or later. *)
Theorem recent_after_archive_is_recent :
  forall (now : timestamptz) (age : Z) (user : uuid) (t : list journal_entry)
         (n : Z) (rows : list recent_row),
    get_recent_journal_entries (archive_older_than now age user t) user n = Ok rows ->
    forall m, In m rows -> now - age <= rr_created_at m.
Proof.
  intros now age user t n rows Hrows m Hm.
  destruct (recent_rows_from _ _ _ _ _ Hrows Hm) as (e' & He' & -> & Hc).
  apply recent_condition_true in Hc. destruct Hc as [Hu Ha].
  unfold archive_older_than in He'. apply sql_update_In in He'.
  destruct He' as (e & He & ->). simpl.
  destruct (sql_true (archive_condition now age user e)) eqn:E.
  - simpl in Ha. discriminate.
  - destruct (Z_lt_le_dec (je_created_at e) (now - age)) as [Hlt|Hge]; [|exact Hge].
    exfalso.
    assert (Hc : archive_condition now age user e = Some true)
      by (apply archive_condition_true; auto).
    unfold sql_true in E. rewrite Hc in E. discriminate.
Qed.

(** ** Conversation-State Store: reading, clearing, the README's save *)

Lemma execute_ok {A} (stmt : statement A) w a db' :
  hd None (w_faults w) = None ->
  stmt (w_schema w) (w_now w) (w_db w) = Ok (a, db') ->
  execute stmt w =
    (Ok a, {| w_schema := w_schema w; w_db := db'; w_faults := tl (w_faults w);
              w_now := w_now w + 1; w_log := w_log w |}).
Proof.
  intros Hf Hs. unfold execute. rewrite Hs.
  destruct (w_faults w) as [|[e|] fs]; simpl in *; try discriminate; reflexivity.
Qed.

Lemma rows_for_after_delete user key t :
  rows_for user key (sql_delete (state_condition user key) t) = [].
Proof.
  unfold rows_for, sql_where, sql_delete. induction t as [|r t IH]; simpl; [reflexivity|].
  destruct (sql_true (state_condition user key r)) eqn:E; simpl; [exact IH|].
  rewrite E. exact IH.
Qed.

Lemma rows_for_other_after_delete user key u k t :
  u <> user \/ k <> key ->
  rows_for u k (sql_delete (state_condition user key) t) = rows_for u k t.
Proof.
  intros Hne. unfold rows_for, sql_where, sql_delete.
  induction t as [|r t IH]; simpl; [reflexivity|].
  destruct (sql_true (state_condition user key r)) eqn:E; simpl.
  - destruct (sql_true (state_condition u k r)) eqn:E'; [|exact IH].
    exfalso. unfold sql_true in E, E'.
    destruct (state_condition user key r) as [[|]|] eqn:C; try discriminate.
    destruct (state_condition u k r) as [[|]|] eqn:C'; try discriminate.
    apply state_condition_true in C. apply state_condition_true in C'.
    destruct C as [<- <-]. destruct C' as [<- <-]. destruct Hne; congruence.
  - rewrite IH. reflexivity.
Qed.

(** X6. With the database reachable, [clear_state] followed by [load_state]
    for the same key returns "absent": no row of that key is left, and the
    rows of every other user or session key are as they were. *)
Theorem clear_then_load_is_absent :
  forall (w : world) (user : uuid) (key : string),
    hd None (w_faults w) = None ->
    hd None (tl (w_faults w)) = None ->
    let out := (ConversationStore.clear_state user key ;;;
                ConversationStore.load_state user key) w in
    fst out = Ok None
    /\ rows_for user key (conversation_history (w_db (snd out))) = []
    /\ (forall u k, u <> user \/ k <> key ->
          rows_for u k (conversation_history (w_db (snd out)))
          = rows_for u k (conversation_history (w_db w))).
Proof.
  intros w user key H1 H2. cbv zeta.
  unfold bind, ConversationStore.clear_state, ConversationStore.load_state,
    try_except, bind.
  rewrite (execute_ok (delete_state user key) w tt _ H1 eq_refl).
  erewrite execute_ok; [| exact H2 | reflexivity].
  simpl. fold (rows_for user key
                 (sql_delete (state_condition user key) (conversation_history (w_db w)))).
  rewrite rows_for_after_delete. simpl. repeat split.
  - apply rows_for_after_delete.
  - intros u k Hne. apply rows_for_other_after_delete. exact Hne.
Qed.


Lemma no_conflict_on_fresh_id new t :
  ch_id new = fresh_uuid (map ch_id t) ->
  existsb (ch_conflict [Ch_id] new) t = false.
Proof.
  intros Hid. destruct (existsb (ch_conflict [Ch_id] new) t) eqn:E; [|reflexivity].
  apply existsb_exists in E. destruct E as (old & Hold & Hc).
  unfold ch_conflict in Hc. simpl in Hc. rewrite andb_true_r in Hc.
  apply Nat.eqb_eq in Hc. exfalso.
  apply (fresh_uuid_not_in (map ch_id t)). rewrite <- Hid, Hc.
  apply in_map. exact Hold.
Qed.


(** ** Session Store: sequential use *)

Lemma select_open_session_after_insert now owner t :
  select_open_session owner t = [] ->
  select_open_session owner (fst (insert_chat_session now owner t))
  = [snd (insert_chat_session now owner t)].
Proof.
  intros H. apply select_open_session_nil in H.
  unfold select_open_session. fold (open_sessions owner (fst (insert_chat_session now owner t))).
  rewrite open_sessions_insert, H, Nat.eqb_refl. reflexivity.
Qed.

(** X9. With the database reachable, two calls of
    [get_or_create_chat_session] in a row return the same session, and the
    second call writes nothing. *)
Theorem get_or_create_chat_session_twice :
  forall (w : world) (owner : uuid),
    w_faults w = [] ->
    let first := get_or_create_chat_session owner w in
    let second := get_or_create_chat_session owner (snd first) in
    exists s,
      fst first = Ok s /\ fst second = Ok s /\ w_db (snd second) = w_db (snd first).
Proof.
  intros w owner Hf. cbv zeta.
  unfold get_or_create_chat_session, bind, execute, select_open_session_stmt,
    insert_chat_session_stmt, ret.
  rewrite Hf. simpl.
  destruct (select_open_session owner (chat_sessions (w_db w))) as [|s rest] eqn:Hsel;
    simpl.
  - pose proof (select_open_session_after_insert (w_now w + 1) owner
                  (chat_sessions (w_db w)) Hsel) as Hnext.
    unfold insert_chat_session in Hnext. simpl in Hnext. rewrite Hnext. simpl.
    eexists. repeat split.
  - rewrite Hsel. simpl. eexists. repeat split.
Qed.

(** X10. A session that was ended is not handed out again: after
    [end_session] on a stored session, whatever [get_or_create_chat_session]
    returns, for any owner, has another id. *)
Theorem ended_session_is_not_handed_out :
  forall (w : world) (t0 : list chat_session) (now : timestamptz) (sid owner : uuid)
         (s : chat_session),
    In sid (map cs_id t0) ->
    chat_sessions (w_db w) = end_session now sid t0 ->
    fst (get_or_create_chat_session owner w) = Ok s ->
    cs_id s <> sid.
Proof.
  intros w t0 now sid owner s Hsid Ht Hs Heq.
  assert (Hended : forall r, In r (chat_sessions (w_db w)) -> cs_id r = sid ->
                             cs_ended_at r = Some now).
  { intros r Hr Hid. rewrite Ht in Hr. unfold end_session in Hr.
    apply sql_update_In in Hr. destruct Hr as (r0 & _ & ->).
    rewrite end_session_row in *.
    destruct (Nat.eqb (cs_id r0) sid) eqn:E; [reflexivity|].
    apply Nat.eqb_neq in E. contradiction. }
  assert (Hids : In sid (map cs_id (chat_sessions (w_db w)))).
  { rewrite Ht. unfold end_session, sql_update. rewrite map_map.
    apply in_map_iff in Hsid. destruct Hsid as (r0 & Hid & Hr0).
    apply in_map_iff. exists r0. split; [|exact Hr0].
    rewrite end_session_row. destruct (Nat.eqb (cs_id r0) sid); exact Hid. }
  pose proof (get_or_create_chat_session_run w owner) as Hrun. cbv zeta in Hrun.
  destruct Hrun as [(_ & Hfound & _) | (_ & now' & Hres & _)].
  - destruct (Hfound s Hs) as (rest & Hsel).
    apply select_open_session_cons in Hsel. destruct Hsel as [Hin _].
    unfold open_sessions in Hin. apply sql_where_In in Hin. destruct Hin as [Hin Hc].
    apply open_condition_true in Hc. destruct Hc as [_ Hopen].
    rewrite (Hended s Hin Heq) in Hopen. discriminate.
  - rewrite Hres in Hs. injection Hs as <-. simpl in Heq.
    apply (fresh_uuid_not_in (map cs_id (chat_sessions (w_db w)))).
    rewrite Heq. exact Hids.
Qed.

(** ** Journal follow-ups: the failing paths *)

Section FollowUpFailures.

Variable embed : string -> result exn vector.
Variable synthesize_entry : string -> string -> result exn string.

(** X11. A follow-up on an entry that does not exist, or that belongs to
    another user, is answered with [HTTPException(500)] carrying the text of
    the [.single()] error, not with the 404 the handler spells out, and
    nothing is written. *)
Theorem process_follow_up_unknown_entry :
  forall (w : world) (request : JournalFollowUpRequest),
    hd None (w_faults w) = None ->
    sql_where (entry_condition (entry_id request) (user_id request))
              (journal_entries (w_db w)) = [] ->
    fst (process_follow_up embed synthesize_entry request w)
      = Err (HTTPException 500 "JSON object requested, multiple (or no) rows returned")
    /\ w_db (snd (process_follow_up embed synthesize_entry request w)) = w_db w.
Proof.
  intros w request Hf Hsel.
  unfold process_follow_up, try_except, bind, execute, select_entry_single, raise.
  rewrite Hsel.
  destruct (w_faults w) as [|[e|] fs]; simpl in *; try discriminate; auto.
Qed.

(** X12. When the synthesis raises, the follow-up question and answer are
    already stored: the caller gets [HTTPException(500)] with the text of
    the error, the new follow-up stays in the table without a synthesized
    entry, and no journal entry is added. *)
Theorem process_follow_up_synthesis_fails :
  forall (w : world) (request : JournalFollowUpRequest) (original : journal_entry)
         (err : exn),
    hd None (w_faults w) = None ->
    hd None (tl (w_faults w)) = None ->
    sql_where (entry_condition (entry_id request) (user_id request))
              (journal_entries (w_db w)) = [original] ->
    synthesize_entry (je_content original) (answer request) = Err err ->
    let out := process_follow_up embed synthesize_entry request w in
    fst out = Err (HTTPException 500 (str err))
    /\ journal_entries (w_db (snd out)) = journal_entries (w_db w)
    /\ exists f,
         journal_followups (w_db (snd out)) = journal_followups (w_db w) ++ [f]
         /\ jf_original_entry_id f = entry_id request
         /\ jf_follow_up_question f = Some (question request)
         /\ jf_follow_up_answer f = Some (answer request)
         /\ jf_synthesized_entry_id f = None.
Proof.
  intros w request original err H1 H2 Hsel Hsyn. cbv zeta.
  unfold process_follow_up, try_except, bind, execute, select_entry_single,
    insert_followup_stmt, lift, raise.
  rewrite Hsel.
  destruct (w_faults w) as [|[e1|] [|[e2|] fs]]; simpl in *; try discriminate.
  all: rewrite Hsyn; simpl; repeat split; eexists; repeat split.
Qed.

End FollowUpFailures.

(** ** Chat messages and the session history *)

Lemma execute_more_ok {A} (stmt : more_statement A) s a m' :
  hd None (w_faults (s_world s)) = None ->
  stmt (w_now (s_world s)) (w_db (s_world s)) (s_more s) = Ok (a, m') ->
  execute_more stmt s =
    (Ok a,
     {| s_world := {| w_schema := w_schema (s_world s); w_db := w_db (s_world s);
                      w_faults := tl (w_faults (s_world s));
                      w_now := w_now (s_world s) + 1; w_log := w_log (s_world s) |};
        s_more := m' |}).
Proof.
  intros Hf Hs. unfold execute_more.
  rewrite (execute_ok _ (s_world s) (w_now (s_world s)) (w_db (s_world s)) Hf eq_refl).
  rewrite Hs. reflexivity.
Qed.

Lemma execute_more_refused {A} (stmt : more_statement A) s e :
  hd None (w_faults (s_world s)) = None ->
  stmt (w_now (s_world s)) (w_db (s_world s)) (s_more s) = Err e ->
  execute_more stmt s =
    (Err (APIError e),
     {| s_world := {| w_schema := w_schema (s_world s); w_db := w_db (s_world s);
                      w_faults := tl (w_faults (s_world s));
                      w_now := w_now (s_world s) + 1; w_log := w_log (s_world s) |};
        s_more := s_more s |}).
Proof.
  intros Hf Hs. unfold execute_more.
  rewrite (execute_ok _ (s_world s) (w_now (s_world s)) (w_db (s_world s)) Hf eq_refl).
  rewrite Hs. reflexivity.
Qed.


Lemma message_asc_total a b : message_asc a b = true \/ message_asc b a = true.
Proof.
  destruct a as [x|], b as [y|]; simpl; auto. rewrite !Z.leb_le. lia.
Qed.

Lemma message_asc_trans a b c :
  message_asc a b = true -> message_asc b c = true -> message_asc a c = true.
Proof.
  destruct a as [x|], b as [y|], c as [z|]; simpl; try congruence.
  rewrite !Z.leb_le. lia.
Qed.


Lemma insert_by_before_last {A} (le : A -> A -> bool) y x l :
  le y x = true -> insert_by le y (l ++ [x]) = insert_by le y l ++ [x].
Proof.
  intros H. induction l as [|z l IH]; simpl.
  - rewrite H. reflexivity.
  - destruct (le y z); [reflexivity|]. rewrite IH. reflexivity.
Qed.

Lemma order_by_snoc {A} (le : A -> A -> bool) x l :
  (forall y, In y l -> le y x = true) ->
  order_by le (l ++ [x]) = order_by le l ++ [x].
Proof.
  induction l as [|z l IH]; simpl; intros H; [reflexivity|].
  rewrite IH by auto. apply insert_by_before_last.
  assert (Hz : le z x = true) by auto.
  clear IH. revert Hz. generalize (order_by le l). intros sorted Hz. exact Hz.
Qed.


(** ** Profiles *)

Lemma has_id_true user p : has_id user p = Some true <-> up_id p = user.
Proof.
  unfold has_id. split.
  - intros H. injection H as H. apply Nat.eqb_eq. exact H.
  - intros ->. rewrite Nat.eqb_refl. reflexivity.
Qed.

Lemma one_profile_per_id user t p rest :
  NoDup (map up_id t) ->
  sql_where (has_id user) t = p :: rest -> rest = [].
Proof.
  revert p rest. induction t as [|q t IH]; intros p rest Hnd H; [discriminate|].
  inversion Hnd as [|? ? Hq Hnd']; subst.
  unfold sql_where in H. cbn [filter] in H.
  destruct (sql_true (has_id user q)) eqn:E.
  - injection H as _ Hrest. rewrite <- Hrest. clear Hrest.
    destruct (sql_where (has_id user) t) as [|r l] eqn:Ef; [exact Ef|].
    exfalso. apply Hq.
    assert (Hr : In r (sql_where (has_id user) t)) by (rewrite Ef; left; reflexivity).
    apply sql_where_In in Hr. destruct Hr as [Hr Hid]. apply has_id_true in Hid.
    assert (Hqid : has_id user q = Some true)
      by (unfold sql_true in E; destruct (has_id user q) as [[|]|]; congruence).
    apply has_id_true in Hqid. rewrite Hqid, <- Hid. apply in_map. exact Hr.
  - eapply IH; eassumption.
Qed.

Lemma no_profile_no_id user t :
  sql_where (has_id user) t = [] -> ~ In user (map up_id t).
Proof.
  intros H Hin. apply in_map_iff in Hin. destruct Hin as (p & Hid & Hp).
  assert (Hq : In p (sql_where (has_id user) t)).
  { apply sql_where_In. split; [exact Hp|]. unfold has_id. rewrite Hid, Nat.eqb_refl.
    reflexivity. }
  rewrite H in Hq. destruct Hq.
Qed.

(** X16. [get_profile] never writes. With the database reachable it returns
    the stored profile of the user when there is exactly one, and raises the
    [.single()] error otherwise: for a user without profile no default
    profile is created. *)
Theorem get_profile_outcomes :
  forall (s : site) (user : uuid),
    s_more (snd (get_profile user s)) = s_more s
    /\ (hd None (w_faults (s_world s)) = None ->
        match sql_where (has_id user) (user_profiles (s_more s)) with
        | [p] => fst (get_profile user s) = Ok p
        | _ =>
            fst (get_profile user s)
            = Err (APIError (SqlError "PGRST116"
                     "JSON object requested, multiple (or no) rows returned"))
        end).
Proof.
  intros s user. unfold get_profile. split.
  - unfold execute_more, execute, select_profile_single.
    destruct (w_faults (s_world s)) as [|[e|] fs]; simpl; try reflexivity.
    all: fold (has_id user);
      destruct (sql_where (has_id user) (user_profiles (s_more s))) as [|p [|q l]];
      reflexivity.
  - intros Hf.
    destruct (sql_where (has_id user) (user_profiles (s_more s))) as [|p [|q l]] eqn:E.
    + erewrite execute_more_refused; [reflexivity | exact Hf |].
      unfold select_profile_single. fold (has_id user). rewrite E. reflexivity.
    + erewrite execute_more_ok; [reflexivity | exact Hf |].
      unfold select_profile_single. fold (has_id user). rewrite E. reflexivity.
    + erewrite execute_more_refused; [reflexivity | exact Hf |].
      unfold select_profile_single. fold (has_id user). rewrite E. reflexivity.
Qed.


(** ** Meditation reflections *)

Section MeditationFacts.

Variable generate_insight : string -> result exn string.
Variable get_embedding : string -> result exn (option vector).

Lemma selected_incomplete_session user t s0 rest :
  firstn 1 (order_by MeditationRouter.med_created_desc
              (sql_where (MeditationRouter.incomplete_condition user) t)) = s0 :: rest ->
  In s0 t /\ med_user_id s0 = user /\ med_completed s0 = false.
Proof.
  intros H.
  assert (Hin : In s0 (order_by MeditationRouter.med_created_desc
                         (sql_where (MeditationRouter.incomplete_condition user) t))).
  { apply (In_firstn s0 1). rewrite H. left. reflexivity. }
  apply order_by_In, sql_where_In in Hin. destruct Hin as [Hin Hc].
  unfold MeditationRouter.incomplete_condition in Hc. apply sql_and_true in Hc.
  destruct Hc as [Hu Hd]. injection Hu as Hu. injection Hd as Hd.
  apply Nat.eqb_eq in Hu. apply eqb_prop in Hd. auto.
Qed.

Lemma session_still_referenced now id t s0 :
  In s0 t -> med_id s0 = id ->
  existsb (fun s => Nat.eqb (med_id s) id)
          (sql_update (fun s => Some (Nat.eqb (med_id s) id))
                      (MeditationRouter.set_completed now) (fun r => r) t) = true.
Proof.
  intros Hin Hid. apply existsb_exists.
  exists (MeditationRouter.set_completed now s0). split.
  - apply sql_update_In. exists s0. split; [exact Hin|].
    unfold sql_true. rewrite Hid, Nat.eqb_refl. reflexivity.
  - simpl. rewrite Hid. apply Nat.eqb_refl.
Qed.

Lemma new_session_referenced (r : meditation_session) t :
  existsb (fun s => Nat.eqb (med_id s) (med_id r)) (t ++ [r]) = true.
Proof.
  apply existsb_exists. exists r. split.
  - apply in_app_iff. right. left. reflexivity.
  - apply Nat.eqb_refl.
Qed.




End MeditationFacts.

(** ** The meditation timer *)

Lemma stage_index_fifths d r :
  0 < d -> stage_index d r = (d * 60 - r) / (12 * d).
Proof.
  intros Hd. unfold stage_index. f_equal.
  replace (d * 60) with (12 * d * 5) by ring. apply Z.div_mul. lia.
Qed.

Lemma durations_positive d : In d durations -> 0 < d.
Proof. unfold durations. simpl. intuition lia. Qed.

(** X21. For a duration the page offers and a remaining time between 0 and
    the whole session, the stage index lies between 0 and 5, does not
    decrease as time runs down, is exactly [k] when [k] fifths of the
    session have passed, and reaches 5, the value the page's guard
    [stageIndex < 5] excludes, only when no time remains. *)
Theorem stage_index_bounds :
  forall (d r1 r2 : Z),
    In d durations ->
    0 <= r1 <= r2 -> r2 <= d * 60 ->
    0 <= stage_index d r2 <= stage_index d r1
    /\ stage_index d r1 <= 5
    /\ (stage_index d r1 = 5 <-> r1 = 0)
    /\ (forall k, 0 <= k <= 5 -> stage_index d (d * 60 - k * (d * 60 / 5)) = k).
Proof.
  intros d r1 r2 Hd Hr Hmax. apply durations_positive in Hd.
  assert (Hfive : d * 60 / 5 = 12 * d).
  { replace (d * 60) with (12 * d * 5) by ring. apply Z.div_mul. lia. }
  rewrite !stage_index_fifths by exact Hd.
  assert (Htop : (d * 60) / (12 * d) = 5).
  { replace (d * 60) with (5 * (12 * d)) by ring. apply Z.div_mul. lia. }
  split; [split|split; [|split]].
  - apply Z.div_pos; lia.
  - apply Z.div_le_mono; lia.
  - rewrite <- Htop. apply Z.div_le_mono; lia.
  - split.
    + intros H5.
      pose proof (Z.mul_div_le (d * 60 - r1) (12 * d) ltac:(lia)) as Hle.
      rewrite H5 in Hle. lia.
    + intros ->. rewrite Z.sub_0_r. exact Htop.
  - intros k Hk. rewrite stage_index_fifths by exact Hd. rewrite Hfive.
    replace (d * 60 - (d * 60 - k * (12 * d))) with (k * (12 * d)) by ring.
    apply Z.div_mul. lia.
Qed.

(** ** The caption history *)

Lemma NoDup_skipn {A} n (l : list A) : NoDup l -> NoDup (skipn n l).
Proof.
  intros H. rewrite <- (firstn_skipn n l) in H.
  apply NoDup_app_remove_l in H. exact H.
Qed.

Lemma In_skipn {A} (x : A) n l : In x (skipn n l) -> In x l.
Proof.
  intros H. rewrite <- (firstn_skipn n l). apply in_app_iff. right. exact H.
Qed.

Lemma last_survives_slice {A} (x : A) n l :
  (0 < n)%nat -> In x (slice_last n (l ++ [x])).
Proof.
  intros Hn. unfold slice_last. rewrite length_app. simpl.
  rewrite skipn_app.
  apply in_app_iff. right.
  replace (List.length l + 1 - n - List.length l)%nat with 0%nat by lia.
  left. reflexivity.
Qed.

Lemma push_caption_keeps (h : list string) (x : string) :
  (List.length h <= maxHistoryLines)%nat -> NoDup h ->
  (List.length (push_caption h x) <= maxHistoryLines)%nat
  /\ NoDup (push_caption h x)
  /\ In x (push_caption h x)
  /\ (forall y, In y (push_caption h x) -> y = x \/ In y h).
Proof.
  intros Hlen Hnd. unfold push_caption.
  destruct (existsb (String.eqb x) h) eqn:E.
  - apply existsb_exists in E. destruct E as (y & Hy & Heq).
    apply String.eqb_eq in Heq. subst y. auto.
  - assert (Hnot : ~ In x h).
    { intros Hin. assert (existsb (String.eqb x) h = true).
      { apply existsb_exists. exists x. split; [exact Hin | apply String.eqb_refl]. }
      congruence. }
    split; [|split; [|split]].
    + unfold slice_last. rewrite length_skipn. unfold maxHistoryLines. lia.
    + apply NoDup_skipn.
      apply (Permutation_NoDup (Permutation_cons_append h x)).
      constructor; assumption.
    + apply last_survives_slice. unfold maxHistoryLines. lia.
    + intros y Hy. apply In_skipn in Hy. apply in_app_iff in Hy.
      destruct Hy as [Hy|[<-|[]]]; auto.
Qed.

Lemma caption_history_from (lines h : list string) :
  (List.length h <= maxHistoryLines)%nat -> NoDup h ->
  (List.length (fold_left push_caption lines h) <= maxHistoryLines)%nat
  /\ NoDup (fold_left push_caption lines h)
  /\ (forall y, In y (fold_left push_caption lines h) -> In y lines \/ In y h).
Proof.
  revert h. induction lines as [|x lines IH]; simpl; intros h Hlen Hnd.
  - auto.
  - destruct (push_caption_keeps h x Hlen Hnd) as (Hl & Hn & _ & Hfrom).
    destruct (IH _ Hl Hn) as (Hl' & Hn' & Hfrom').
    split; [exact Hl'|]. split; [exact Hn'|].
    intros y Hy. destruct (Hfrom' y Hy) as [H|H]; [auto|].
    destruct (Hfrom y H) as [->|H']; auto.
Qed.

(** X24. Whatever lines are moved to the caption history, it holds at most
    five lines, no line twice, and only lines that were moved to it; and the
    line moved last is in it. *)
Theorem caption_history_bounded :
  forall lines : list string,
    (List.length (caption_history lines) <= 5)%nat
    /\ NoDup (caption_history lines)
    /\ (forall y, In y (caption_history lines) -> In y lines)
    /\ (forall earlier x, lines = earlier ++ [x] -> In x (caption_history lines)).
Proof.
  intros lines. unfold caption_history.
  destruct (caption_history_from lines []) as (Hl & Hn & Hfrom);
    [simpl; unfold maxHistoryLines; lia | constructor |].
  split; [exact Hl|]. split; [exact Hn|]. split.
  - intros y Hy. destruct (Hfrom y Hy) as [H|[]]. exact H.
  - intros earlier x ->. rewrite fold_left_app. simpl.
    destruct (caption_history_from earlier []) as (Hl' & Hn' & _);
      [simpl; unfold maxHistoryLines; lia | constructor |].
    apply (push_caption_keeps _ x Hl' Hn').
Qed.

(* ================================================================== *)
(** * Part V. The further properties at work on the sample data *)
(* ================================================================== *)

(** X2 at work: the two newest entries of owner 7 are 6 and 3; entry 2 is
    left out and is older than both. *)
Lemma get_recent_journal_entries_newest_witness :
  exists rows,
    get_recent_journal_entries sample_journal 7%nat 2 = Ok rows
    /\ In sample_entry_2 sample_journal
    /\ je_user_id sample_entry_2 = 7%nat
    /\ je_is_archived sample_entry_2 = false
    /\ ~ In (je_id sample_entry_2) (map rr_id rows)
    /\ forall m, In m rows -> je_created_at sample_entry_2 <= rr_created_at m.
Proof.
  eexists. split; [reflexivity|].
  split; [right; left; reflexivity|].
  split; [reflexivity|]. split; [reflexivity|].
  split; [simpl; intuition discriminate|].
  apply (get_recent_journal_entries_newest sample_journal 7%nat 2 _ sample_entry_2
           eq_refl (or_intror (or_introl eq_refl)) eq_refl eq_refl).
  simpl. intuition discriminate.
Defined.


(** X5 at work: after archiving what is older than 150, the recent entries
    of owner 7 are from 150 on. *)
Lemma recent_after_archive_is_recent_witness :
  exists rows,
    get_recent_journal_entries (archive_older_than 1000 850 7%nat sample_journal) 7%nat 5
      = Ok rows
    /\ map rr_id rows = [6%nat; 3%nat; 2%nat]
    /\ forall m, In m rows -> 1000 - 850 <= rr_created_at m.
Proof.
  eexists. split; [reflexivity|]. split; [reflexivity|].
  apply (recent_after_archive_is_recent 1000 850 7%nat sample_journal 5 _ eq_refl).
Defined.

(** X6 at work: the state of user 7 is cleared and read again. *)
Lemma clear_then_load_is_absent_witness :
  hd None (w_faults (world_of schema_sql sample_history_database [])) = None
  /\ hd None (tl (w_faults (world_of schema_sql sample_history_database []))) = None
  /\ fst ((ConversationStore.clear_state 7%nat ConversationStore.default ;;;
           ConversationStore.load_state 7%nat ConversationStore.default)
            (world_of schema_sql sample_history_database [])) = Ok None.
Proof.
  split; [reflexivity|]. split; [reflexivity|].
  pose proof (clear_then_load_is_absent (world_of schema_sql sample_history_database [])
                7%nat ConversationStore.default eq_refl eq_refl) as H.
  cbv zeta in H. exact (proj1 H).
Defined.



(** X9 at work: two calls for owner 7 on a database without sessions. *)
Lemma get_or_create_chat_session_twice_witness :
  w_faults (world_of schema_sql sample_database []) = []
  /\ exists s,
       fst (get_or_create_chat_session 7%nat (world_of schema_sql sample_database []))
         = Ok s
       /\ fst (get_or_create_chat_session 7%nat
                 (snd (get_or_create_chat_session 7%nat
                         (world_of schema_sql sample_database []))))
          = Ok s.
Proof.
  split; [reflexivity|].
  pose proof (get_or_create_chat_session_twice (world_of schema_sql sample_database [])
                7%nat eq_refl) as H.
  cbv zeta in H. destruct H as (s & H1 & H2 & _). exists s. split; assumption.
Defined.

(** X10 at work: session 1 of owner 7 is ended at 50; the next call creates
    session 2. *)
Lemma ended_session_is_not_handed_out_witness :
  In 1%nat (map cs_id [sample_session 1%nat 7%nat 10 None])
  /\ chat_sessions
       (w_db (world_of schema_sql
                (with_chat_sessions [sample_session 1%nat 7%nat 10 (Some 50)]
                                    empty_database) []))
     = end_session 50 1%nat [sample_session 1%nat 7%nat 10 None]
  /\ exists s,
       fst (get_or_create_chat_session 7%nat
              (world_of schema_sql
                 (with_chat_sessions [sample_session 1%nat 7%nat 10 (Some 50)]
                                     empty_database) [])) = Ok s
       /\ cs_id s <> 1%nat.
Proof.
  split; [left; reflexivity|]. split; [reflexivity|].
  eexists. split; [reflexivity|].
  apply (ended_session_is_not_handed_out
           (world_of schema_sql
              (with_chat_sessions [sample_session 1%nat 7%nat 10 (Some 50)]
                                  empty_database) [])
           [sample_session 1%nat 7%nat 10 None] 50 1%nat 7%nat _
           (or_introl eq_refl) eq_refl eq_refl).
Defined.

(** X11 at work: user 7 follows up on entry 5, which belongs to user 8. *)
Lemma process_follow_up_unknown_entry_witness :
  hd None (w_faults (world_of schema_sql sample_database [])) = None
  /\ sql_where (entry_condition 5%nat 7%nat)
               (journal_entries (w_db (world_of schema_sql sample_database []))) = []
  /\ fst (process_follow_up sample_embed sample_synthesize
            {| entry_id := 5%nat; question := "Why?"; answer := "Because";
               user_id := 7%nat |}
            (world_of schema_sql sample_database []))
     = Err (HTTPException 500 "JSON object requested, multiple (or no) rows returned").
Proof.
  split; [reflexivity|]. split; [reflexivity|].
  exact (proj1 (process_follow_up_unknown_entry sample_embed sample_synthesize
                  (world_of schema_sql sample_database [])
                  {| entry_id := 5%nat; question := "Why?"; answer := "Because";
                     user_id := 7%nat |} eq_refl eq_refl)).
Defined.

(** X12 at work: the generation provider is down. *)
Lemma process_follow_up_synthesis_fails_witness :
  hd None (w_faults (world_of schema_sql sample_database [])) = None
  /\ hd None (tl (w_faults (world_of schema_sql sample_database []))) = None
  /\ sql_where (entry_condition (entry_id sample_request) (user_id sample_request))
               (journal_entries (w_db (world_of schema_sql sample_database [])))
     = [sample_entry_1]
  /\ (fun _ _ : string => Err (ProviderError "503 unavailable") : result exn string)
       (je_content sample_entry_1) (answer sample_request)
     = Err (ProviderError "503 unavailable")
  /\ fst (process_follow_up sample_embed
            (fun _ _ => Err (ProviderError "503 unavailable")) sample_request
            (world_of schema_sql sample_database []))
     = Err (HTTPException 500 "503 unavailable")
  /\ map jf_synthesized_entry_id
       (journal_followups
          (w_db (snd (process_follow_up sample_embed
                        (fun _ _ => Err (ProviderError "503 unavailable")) sample_request
                        (world_of schema_sql sample_database [])))))
     = [None].
Proof.
  split; [reflexivity|]. split; [reflexivity|]. split; [reflexivity|].
  split; [reflexivity|].
  pose proof (process_follow_up_synthesis_fails sample_embed
                (fun _ _ => Err (ProviderError "503 unavailable"))
                (world_of schema_sql sample_database []) sample_request sample_entry_1
                (ProviderError "503 unavailable") eq_refl eq_refl eq_refl eq_refl) as H.
  cbv zeta in H. destruct H as (Hres & _ & f & Hf & _ & _ & _ & Hlink).
  split; [exact Hres|]. rewrite Hf. simpl. rewrite Hlink. reflexivity.
Defined.



Lemma sample_chat_messages_are_past :
  forall c, In c (chat_messages (s_more sample_chat_site)) ->
            cm_created_at c <= w_now (s_world sample_chat_site).
Proof.
  intros c [<-|[<-|[]]]; simpl; lia.
Defined.




Lemma sample_meditation_ids_distinct :
  NoDup (map med_id (meditation_sessions (s_more sample_meditation_site))).
Proof.
  simpl. repeat (constructor; [simpl; intuition discriminate|]). constructor.
Defined.


(** X21 at work: a ten-minute session with 4 and 8 minutes left. *)
Lemma stage_index_bounds_witness :
  In 10 durations
  /\ 0 <= 240 <= 480 /\ 480 <= 10 * 60
  /\ stage_index 10 480 = 1 /\ stage_index 10 240 = 3
  /\ 0 <= stage_index 10 480 <= stage_index 10 240.
Proof.
  split; [right; left; reflexivity|]. split; [lia|]. split; [lia|].
  split; [reflexivity|]. split; [reflexivity|].
  exact (proj1 (stage_index_bounds 10 240 480 (or_intror (or_introl eq_refl))
                  ltac:(lia) ltac:(lia))).
Defined.
